(** * SIF image assembly

    A shallow embedding of [internal/pkg/build/assemblers/sif.go]: the
    functions [createSIF], [Assemble] and [changeOwner], together with the
    part of their surroundings they talk to (environment, file system,
    the SIF writer, the key-wrapping and squashfs helpers).  Everything the
    Go code obtains from outside is read from a [World]; everything it does
    to the outside is recorded in a [State] (file system and chronological
    trace of calls).

    The file has three parts: the embedding of the program, the vocabulary
    in which its properties are stated, and the properties with their
    proofs, closed by concrete runs. *)

From Stdlib Require Import ZArith Lia Strings.Byte Strings.Ascii.
From stdpp Require Import gmap strings list sorting pretty.

(** ** Go values *)

(** A Go [[]byte].  The code under study never distinguishes a nil slice
    from an empty one, except for the result of [cryptkey.EncryptKey],
    which is therefore an [option bytes] below ([None] is nil). *)
Abbreviation bytes := (list byte).

(** [len] of a slice, as a Go [int]. *)
Definition len {A} (l : list A) : Z := Z.of_nat (length l).

(** Conversion to [uint32] wraps around. *)
Definition uint32 (n : Z) : Z := (n mod 2 ^ 32)%Z.

(** [binary.Size] of a byte slice is its length. *)
Definition binary_Size (data : bytes) : Z := len data.

(** ** Errors *)

Inductive NumErrKind := ErrSyntax | ErrRange.

(** Go [error] values: one produced by a collaborator, a
    [*strconv.NumError], or [fmt.Errorf(format, args..., cause)]. *)
Inductive error :=
| ErrExternal (origin detail : string)
| ErrNum (func input : string) (kind : NumErrKind)
| Errorf (format : string) (args : list string) (cause : error).

Inductive result (A : Type) :=
| Ok (a : A)
| Err (e : error).
Arguments Ok {A} a.
Arguments Err {A} e.

Definition is_Ok {A} (r : result A) : bool :=
  match r with Ok _ => true | Err _ => false end.

(** ** The SIF library's descriptor inputs *)

Module sif.

Inductive DataType :=
| DataDeffile | DataEnvVar | DataLabels | DataPartition | DataSignature
| DataGenericJSON | DataGeneric | DataCryptoMessage.

Inductive Fstype := FsSquash | FsExt3 | FsImmuObj | FsRaw | FsEncryptedSquashfs.
Inductive Parttype := PartSystem | PartPrimSys | PartData | PartOverlay.
Inductive Formattype := FormatOpenPGP | FormatPEM.
Inductive Messagetype := MessageClearSignature | MessageRSAOAEP.

Definition DescrGroupMask : Z := 0xf0000000.
Definition DescrDefaultGroup : Z := Z.lor DescrGroupMask 1.
Definition DescrUnusedLink : Z := 0.
Definition HdrLaunch : string := "#!/usr/bin/env run-singularity" +:+ String "010" "".
Definition HdrVersion : string := "02".

(** What [SetPartExtra] and [SetCryptoMsgExtra] store in [Extra]. *)
Inductive ExtraData :=
| NoExtra
| PartExtra (fs : Fstype) (part : Parttype) (arch : string)
| CryptoMsgExtra (format : Formattype) (message : Messagetype).

(** [sif.DescriptorInput]; the fields the assembler leaves at their zero
    value ([Alignment], [Image], [Descr]) are left out. *)
Record DescriptorInput := mkDescriptorInput {
  Datatype : DataType;
  Groupid : Z;
  Link : Z;
  Size : Z;
  Fname : string;
  Fp : option string;          (* the open partition file, by name *)
  Data : bytes;
  Extra : ExtraData;
}.

Record CreateInfo := mkCreateInfo {
  Pathname : string;
  Launchstr : string;
  Sifversion : string;
  ID : bytes;                  (* uuid.UUID, a [16]byte *)
  InputDescr : list DescriptorInput;
}.

Global Instance DataType_eq_dec : EqDecision DataType.
Proof. solve_decision. Defined.
Global Instance Fstype_eq_dec : EqDecision Fstype.
Proof. solve_decision. Defined.

End sif.
Export sif.

(** ** The bundle handed to the assembler *)

Module cryptkey.
Inductive KeyFormat := Unknown | Passphrase | PEM | ENV.
Record KeyInfo := mkKeyInfo {
  Format : KeyFormat;
  Material : string;
  Path : string;
}.
End cryptkey.
Export cryptkey.

(** [types.Bundle], restricted to the fields the assembler reads. *)
Record Bundle := mkBundle {
  RootfsPath : string;
  TmpDir : string;
  JSONObjects : gmap string bytes;
  Recipe_Raw : bytes;                           (* b.Recipe.Raw *)
  Opts_EncryptionKeyInfo : option KeyInfo;      (* b.Opts.EncryptionKeyInfo *)
}.

Record SIFAssembler := mkSIFAssembler {
  GzipFlag : bool;
  MksquashfsProcs : N;                          (* uint *)
  MksquashfsMem : string;
  MksquashfsPath : string;
}.

Record encryptionOptions := mkEncryptionOptions {
  keyInfo : KeyInfo;
  plaintext : bytes;
}.

(** ** The outside world *)

Inductive Content :=
| FBytes (data : bytes)
| FSIF (image : CreateInfo).

Record File := mkFile {
  f_content : Content;
  f_uid : Z;
  f_gid : Z;
}.

Inductive Level := Info | Verbose | Warning.

Inductive LogArg :=
| ArgString (s : string)
| ArgError (e : error).

Inductive Event :=
| EvLog (lvl : Level) (format : string) (args : list LogArg)
| EvTempFile (name : string)
| EvSquashfsCreate (mksquashfs : string) (files : list string) (dest : string)
                   (flags : list string)
| EvEncryptFilesystem (src dest : string)
| EvOpen (name : string)
| EvClose (name : string)
| EvRemove (name : string)
| EvRemoveAll (path : string)
| EvCreateContainer (cinfo : CreateInfo)
| EvUnloadContainer (path : string)
| EvChown (path : string) (uid gid : Z).

(** What one run of the program gets from its surroundings. *)
Record World := mkWorld {
  w_env : gmap string string;                       (* process environment *)
  w_uid : Z;                                        (* syscall.Getuid() *)
  w_gid : Z;
  w_GOARCH : string;                                (* runtime.GOARCH *)
  w_uuid : result bytes;                            (* uuid.NewV4() *)
  w_range : list string;                            (* order of [range b.JSONObjects] *)
  w_open : option error;                            (* failure of os.Open, if any *)
  w_stat : result Z;                                (* fp.Stat(), fi.Size() *)
  w_GetSIFArch : string → string;                   (* sif.GetSIFArch *)
  w_SetPartExtra : Fstype → Parttype → string → option error;
  w_EncryptKey : KeyInfo → bytes → result (option bytes);
  w_SetCryptoMsgExtra : Formattype → Messagetype → option error;
  w_removeall : bool;                               (* os.RemoveAll removed the tree *)
  w_create : option error;                          (* failure of sif.CreateContainer *)
  w_unload : option error;                          (* failure of UnloadContainer *)
  w_chown : option error;                           (* failure of os.Chown *)
  w_tempfile : result string;                       (* name picked by ioutil.TempFile *)
  w_ArchFromContainer : string → string;            (* machine.ArchFromContainer *)
  w_mksquashfs : list string → list string → result bytes;
  w_NewPlaintextKey : KeyInfo → result bytes;
  w_EncryptFilesystem : string → bytes → result (string * bytes);
}.

Record State := mkState {
  st_fs : gmap string File;
  st_trace : list Event;
}.

(** ** The monad of the embedding: reader of the world, state, errors *)

Definition M (A : Type) : Type := World → State → result A * State.

Global Instance M_ret : MRet M := λ A a _ st, (Ok a, st).
Global Instance M_bind : MBind M := λ A B f m w st,
  match m w st with
  | (Ok a, st1) => f a w st1
  | (Err e, st1) => (Err e, st1)
  end.

Definition fail {A} (e : error) : M A := λ _ st, (Err e, st).

(** [v, err := call(); if err != nil { return fmt.Errorf(format, err) }] *)
Definition wrapf {A} (format : string) (args : list string) (call : M A) : M A :=
  λ w st,
  match call w st with
  | (Ok a, st1) => (Ok a, st1)
  | (Err e, st1) => (Err (Errorf format args e), st1)
  end.

Definition wrap {A} (format : string) (call : M A) : M A := wrapf format [] call.

(** [defer cleanup()] in front of the rest of a function body. *)
Definition defer {A} (cleanup : M unit) (body : M A) : M A := λ w st,
  let '(r, st1) := body w st in
  let '(_, st2) := cleanup w st1 in
  (r, st2).

Definition ask {A} (field : World → A) : M A := λ w st, (Ok (field w), st).

Definition ask_result {A} (field : World → result A) : M A := λ w st, (field w, st).

Definition ask_error (field : World → option error) : M unit := λ w st,
  match field w with
  | None => (Ok (), st)
  | Some e => (Err e, st)
  end.

Definition emit (e : Event) : M unit := λ _ st,
  (Ok (), {| st_fs := st_fs st; st_trace := st_trace st ++ [e] |}).

Definition get_fs : M (gmap string File) := λ _ st, (Ok (st_fs st), st).

Definition modify_fs (f : gmap string File → gmap string File) : M unit := λ _ st,
  (Ok (), {| st_fs := f (st_fs st); st_trace := st_trace st |}).

(** ** Primitives: what the calls into other packages do *)

Definition sylog_Infof (format : string) (args : list LogArg) : M unit :=
  emit (EvLog Info format args).
Definition sylog_Verbosef (format : string) (args : list LogArg) : M unit :=
  emit (EvLog Verbose format args).
Definition sylog_Warningf (format : string) (args : list LogArg) : M unit :=
  emit (EvLog Warning format args).

(** [os.Getenv]: the value of the variable, empty when it is unset. *)
Definition getenv (w : World) (key : string) : string := default "" (w_env w !! key).

Definition os_Getenv (key : string) : M string := ask (λ w, getenv w key).

Definition syscall_Getuid : M Z := ask w_uid.

Definition uuid_NewV4 : M bytes := ask_result w_uuid.

(** [for name := range m]: every key once, in the order the runtime picks. *)
Definition range_keys (m : gmap string bytes) : M (list string) := ask w_range.

(** The runtime's order is an enumeration of the keys of the map. *)
Definition range_ok (w : World) (b : Bundle) : Prop :=
  NoDup (w_range w) ∧ list_to_set (w_range w) = dom (JSONObjects b).

(** [os.Open]: fails on a missing file, or when the world refuses. *)
Definition os_Open (name : string) : M string :=
  fs ← get_fs;
  match fs !! name with
  | None => fail (ErrExternal "open" "no such file or directory")
  | Some _ => ask_error w_open;; emit (EvOpen name);; mret name
  end.

Definition File_Close (fp : string) : M unit := emit (EvClose fp).

Definition File_Stat_Size (fp : string) : M Z := ask_result w_stat.

(** [os.Remove]; its error is dropped at both call sites. *)
Definition os_Remove (name : string) : M unit :=
  emit (EvRemove name);; modify_fs (delete name).

(** [path] itself or something below it. *)
Definition within (path name : string) : bool :=
  bool_decide (name = path) || String.prefix (path +:+ "/") name.

(** [os.RemoveAll]: removes [path] and any children it contains; the code
    drops its error, so a refusal of the world leaves the tree in place. *)
Definition os_RemoveAll (path : string) : M unit :=
  emit (EvRemoveAll path);;
  ok ← ask w_removeall;
  if ok : bool then modify_fs (filter (λ kv, within path kv.1 = false)) else mret ().

(** Modelled from the spec: the container writer (section 4.5) accepts the
    destination path, the format and version tags, the identifier and the
    ordered descriptor list; on success the destination holds the container
    made of exactly these, on failure no file remains at the destination.
    The new file belongs to the running process. *)
Definition sif_CreateContainer (cinfo : CreateInfo) : M string := λ w st,
  let st1 := {| st_fs := st_fs st; st_trace := st_trace st ++ [EvCreateContainer cinfo] |} in
  match w_create w with
  | Some e =>
      (Err e, {| st_fs := delete (Pathname cinfo) (st_fs st1); st_trace := st_trace st1 |})
  | None =>
      (Ok (Pathname cinfo),
       {| st_fs := <[Pathname cinfo := mkFile (FSIF cinfo) (w_uid w) (w_gid w)]> (st_fs st1);
          st_trace := st_trace st1 |})
  end.

(** Modelled from the spec: the explicit finalize step of the writer
    (section 4.5); it leaves the file where it is. *)
Definition UnloadContainer (f : string) : M unit :=
  emit (EvUnloadContainer f);; ask_error w_unload.

(** [os.Chown]; an id of -1 leaves that id as it is. *)
Definition chown_file (uid gid : Z) (f : File) : File :=
  mkFile (f_content f)
         (if bool_decide (uid = (-1)%Z) then f_uid f else uid)
         (if bool_decide (gid = (-1)%Z) then f_gid f else gid).

Definition os_Chown (name : string) (uid gid : Z) : M unit :=
  emit (EvChown name uid gid);;
  ask_error w_chown;;
  modify_fs (alter (chown_file uid gid) name).

Definition sif_GetSIFArch (goarch : string) : M string :=
  ask (λ w, w_GetSIFArch w goarch).

Definition set_Extra (d : DescriptorInput) (e : ExtraData) : DescriptorInput :=
  mkDescriptorInput (Datatype d) (Groupid d) (Link d) (Size d) (Fname d) (Fp d) (Data d) e.

Definition SetPartExtra (d : DescriptorInput) (fs : Fstype) (part : Parttype)
    (arch : string) : M DescriptorInput :=
  ask_error (λ w, w_SetPartExtra w fs part arch);;
  mret (set_Extra d (PartExtra fs part arch)).

Definition SetCryptoMsgExtra (d : DescriptorInput) (format : Formattype)
    (message : Messagetype) : M DescriptorInput :=
  ask_error (λ w, w_SetCryptoMsgExtra w format message);;
  mret (set_Extra d (CryptoMsgExtra format message)).

Definition cryptkey_EncryptKey (k : KeyInfo) (plain : bytes) : M (option bytes) :=
  ask_result (λ w, w_EncryptKey w k plain).

(** [sort.Strings]: ascending, bytewise. *)
Definition sort_Strings (l : list string) : list string := merge_sort String.le l.

(** ** [changeOwner] *)

(** [regexp.MustCompile(pattern).MatchString(s)] for a pattern that is a
    literal, possibly in a capture group as in ["(singularity)"]: there are
    no anchors, so [s] matches when the literal occurs anywhere in it. *)
Fixpoint MatchString (literal s : string) : bool :=
  String.prefix literal s ||
  match s with
  | EmptyString => false
  | String _ s' => MatchString literal s'
  end.

Definition digit (c : ascii) : option Z :=
  let n := Z.of_N (N_of_ascii c) in
  if bool_decide (48 ≤ n ≤ 57)%Z then Some (n - 48)%Z else None.

(** The digit loop of [strconv.ParseUint] in base 10 over 64 bits: a byte
    that is no digit is a syntax error, a value beyond [2^64 - 1] a range
    error, whichever comes first. *)
Fixpoint ParseUint_digits (s : string) (n : Z) : NumErrKind + Z :=
  match s with
  | EmptyString => inr n
  | String c s' =>
      match digit c with
      | None => inl ErrSyntax
      | Some d =>
          if bool_decide (n * 10 + d < 2 ^ 64)%Z
          then ParseUint_digits s' (n * 10 + d)%Z
          else inl ErrRange
      end
  end.

(** [strconv.Atoi] with a 64-bit [int]: an optional sign, then one or more
    decimal digits, and the value has to fit. *)
Definition strconv_Atoi (s : string) : result Z :=
  let '(neg, body) :=
    match s with
    | String "-" t => (true, t)
    | String "+" t => (false, t)
    | _ => (false, s)
    end in
  match body with
  | EmptyString => Err (ErrNum "Atoi" s ErrSyntax)
  | _ =>
      match ParseUint_digits body 0 with
      | inl kind => Err (ErrNum "Atoi" s kind)
      | inr un =>
          let v := (if neg : bool then - un else un)%Z in
          if bool_decide (- 2 ^ 63 ≤ v < 2 ^ 63)%Z then Ok v
          else Err (ErrNum "Atoi" s ErrRange)
      end
  end.

Definition changeOwner : M (Z * Z * bool) :=
  sudoCmd ← os_Getenv "SUDO_COMMAND";
  if negb (MatchString "singularity" sudoCmd) then mret (0%Z, 0%Z, false) else
  sudoUser ← os_Getenv "SUDO_USER";
  getuid ← syscall_Getuid;
  if bool_decide (sudoUser = "") || negb (bool_decide (getuid = 0%Z))
  then mret (0%Z, 0%Z, false) else
  _uid ← os_Getenv "SUDO_UID";
  _gid ← os_Getenv "SUDO_GID";
  if bool_decide (_uid = "") || bool_decide (_gid = "") then
    sylog_Warningf
      "Env vars SUDO_UID or SUDO_GID are not set, won't call chown over built SIF" [];;
    mret (0%Z, 0%Z, false)
  else
  match strconv_Atoi _uid with
  | Err err =>
      sylog_Warningf "Error while calling strconv: %v" [ArgError err];;
      mret (0%Z, 0%Z, false)
  | Ok uid =>
      match strconv_Atoi _gid with
      | Err err =>
          sylog_Warningf "Error while calling strconv : %v" [ArgError err];;
          mret (0%Z, 0%Z, false)
      | Ok gid => mret (uid, gid, true)
      end
  end.

(** ** [createSIF] *)

Definition append_descr (cinfo : CreateInfo) (d : DescriptorInput) : CreateInfo :=
  mkCreateInfo (Pathname cinfo) (Launchstr cinfo) (Sifversion cinfo) (ID cinfo)
               (InputDescr cinfo ++ [d]).

(** [b.JSONObjects[name]]: the zero value (nil) for a missing key. *)
Definition JSONObject (b : Bundle) (name : string) : bytes :=
  default [] (JSONObjects b !! name).

(** One round of the loop over the sorted names. *)
Definition add_JSONObject (b : Bundle) (cinfo : CreateInfo) (name : string) : CreateInfo :=
  let data := JSONObject b name in
  if bool_decide (len data > 0)%Z then
    append_descr cinfo
      {| Datatype := DataGenericJSON;
         Groupid := DescrDefaultGroup;
         Link := DescrUnusedLink;
         Size := binary_Size data;
         Fname := name;
         Fp := None;
         Data := data;
         Extra := NoExtra |}
  else cinfo.

Definition createSIF (path : string) (b : Bundle) (squashfile : string)
    (encOpts : option encryptionOptions) (arch : string) : M unit :=
  let definition := Recipe_Raw b in
  id ← wrap "sif id generation failed: %v" uuid_NewV4;
  let cinfo :=
    {| Pathname := path;
       Launchstr := HdrLaunch;
       Sifversion := HdrVersion;
       ID := id;
       InputDescr := [] |} in
  let definput :=
    {| Datatype := DataDeffile;
       Groupid := DescrDefaultGroup;
       Link := DescrUnusedLink;
       Size := binary_Size definition;
       Fname := "";
       Fp := None;
       Data := definition;
       Extra := NoExtra |} in
  let cinfo := append_descr cinfo definput in
  names ← range_keys (JSONObjects b);
  let sorted := sort_Strings names in
  let cinfo := foldl (add_JSONObject b) cinfo sorted in
  fp ← wrap "while opening partition file: %s" (os_Open squashfile);
  defer (File_Close fp) (
    size ← wrap "while calling stat on partition file: %s" (File_Stat_Size fp);
    let parinput :=
      {| Datatype := DataPartition;
         Groupid := DescrDefaultGroup;
         Link := DescrUnusedLink;
         Size := size;
         Fname := squashfile;
         Fp := Some fp;
         Data := [];
         Extra := NoExtra |} in
    let sifType := match encOpts with Some _ => FsEncryptedSquashfs | None => FsSquash end in
    sifarch ← sif_GetSIFArch arch;
    parinput ← SetPartExtra parinput sifType PartPrimSys sifarch;
    let cinfo := append_descr cinfo parinput in
    cinfo ←
      match encOpts with
      | None => mret cinfo
      | Some opts =>
          data ← wrap "while encrypting filesystem key: %s"
                   (cryptkey_EncryptKey (keyInfo opts) (plaintext opts));
          match data with
          | None => mret cinfo
          | Some data =>
              let syspartID := uint32 (len (InputDescr cinfo)) in
              let part :=
                {| Datatype := DataCryptoMessage;
                   Groupid := DescrDefaultGroup;
                   Link := syspartID;
                   Size := len data;
                   Fname := "";
                   Fp := None;
                   Data := data;
                   Extra := NoExtra |} in
              part ← SetCryptoMsgExtra part FormatPEM MessageRSAOAEP;
              mret (append_descr cinfo part)
          end
      end;
    os_RemoveAll path;;
    f ← wrap "while creating container: %s" (sif_CreateContainer cinfo);
    wrap "while unloading container: %w" (UnloadContainer f);;
    '(uid, gid, ok) ← changeOwner;
    if ok : bool then wrap "while changing image ownership: %s" (os_Chown path uid gid)
    else mret ()).

(** ** [Assemble] *)

(** Modelled from the spec: [ioutil.TempFile] makes a new, uniquely named
    file in the scratch directory (section 5); a name that is taken is
    refused. *)
Definition ioutil_TempFile (dir pattern : string) : M string := λ w st,
  match w_tempfile w with
  | Err e => (Err e, st)
  | Ok name =>
      match st_fs st !! name with
      | Some _ => (Err (ErrExternal "open" "file exists"), st)
      | None =>
          (Ok name,
           {| st_fs := <[name := mkFile (FBytes []) (w_uid w) (w_gid w)]> (st_fs st);
              st_trace := st_trace st ++ [EvTempFile name] |})
      end
  end.

Definition write_file (name : string) (data : bytes) : M unit := λ w st,
  (Ok (), {| st_fs := <[name := mkFile (FBytes data) (w_uid w) (w_gid w)]> (st_fs st);
             st_trace := st_trace st |}).

(** Modelled from the spec: the partition builder (section 4.2) turns the
    source directories into one compressed file at the destination. *)
Definition Squashfs_Create (mksquashfs : string) (files : list string) (dest : string)
    (flags : list string) : M unit :=
  emit (EvSquashfsCreate mksquashfs files dest flags);;
  data ← ask_result (λ w, w_mksquashfs w files flags);
  write_file dest data.

Definition cryptkey_NewPlaintextKey (k : KeyInfo) : M bytes :=
  ask_result (λ w, w_NewPlaintextKey w k).

(** Modelled from the spec: the encryption coordinator (section 4.3, step 2)
    supersedes the partition file by a new encrypted object and returns the
    path of that object. *)
Definition EncryptFilesystem (path : string) (key : bytes) : M string :=
  '(loop, data) ← ask_result (λ w, w_EncryptFilesystem w path key);
  emit (EvEncryptFilesystem path loop);;
  write_file loop data;;
  mret loop.

Definition machine_ArchFromContainer (rootfs : string) : M string :=
  ask (λ w, w_ArchFromContainer w rootfs).

(** The flags of the squashfs call (lines 196 to 210 of the source). *)
Definition mksquashfs_flags (a : SIFAssembler) (getuid : Z) : list string :=
  let flags := ["-noappend"] in
  let flags := if bool_decide (getuid ≠ 0%Z) then flags ++ ["-all-root"] else flags in
  let flags := if GzipFlag a then flags ++ ["-comp"; "gzip"] else flags in
  let flags :=
    if bool_decide (MksquashfsMem a ≠ "") then flags ++ ["-mem"; MksquashfsMem a]
    else flags in
  let flags :=
    if bool_decide (MksquashfsProcs a ≠ 0%N)
    then flags ++ ["-processors"; pretty (MksquashfsProcs a)]
    else flags in
  flags.

(** The architecture of the image (lines 211 to 216 of the source). *)
Definition resolve_arch (rootfs : string) : M string :=
  arch ← machine_ArchFromContainer rootfs;
  arch ←
    (if bool_decide (arch = "") then
       sylog_Infof "Architecture not recognized, use native" [];;
       ask w_GOARCH
     else mret arch);
  sylog_Verbosef "Set SIF container architecture to %s" [ArgString arch];;
  mret arch.

Definition Assemble (a : SIFAssembler) (b : Bundle) (path : string) : M unit :=
  sylog_Infof "Creating SIF file..." [];;
  fsPath ← wrap "while creating temporary file for squashfs: %v"
             (ioutil_TempFile (TmpDir b) "squashfs-");
  File_Close fsPath;;
  defer (os_Remove fsPath) (
    getuid ← syscall_Getuid;
    let flags := mksquashfs_flags a getuid in
    arch ← resolve_arch (RootfsPath b);
    wrap "while creating squashfs: %v"
      (Squashfs_Create (MksquashfsPath a) [RootfsPath b] fsPath flags);;
    match Opts_EncryptionKeyInfo b with
    | None =>
        wrap "while creating SIF: %v" (createSIF path b fsPath None arch)
    | Some key =>
        plain ← wrap "unable to obtain encryption key: %+v" (cryptkey_NewPlaintextKey key);
        loopPath ← wrapf "unable to encrypt filesystem at %s: %+v" [fsPath]
                     (EncryptFilesystem fsPath plain);
        defer (os_Remove loopPath) (
          let encOpts := {| keyInfo := key; plaintext := plain |} in
          wrap "while creating SIF: %v" (createSIF path b loopPath (Some encOpts) arch))
    end).

Definition run {A} (m : M A) (w : World) (fs : gmap string File) : result A * State :=
  m w {| st_fs := fs; st_trace := [] |}.

(** * The vocabulary of the properties *)

(** ** Events and states *)

(** A line of the log at warning level. *)
Definition is_warning (e : Event) : Prop :=
  match e with EvLog Warning _ _ => True | _ => False end.

(** The state after some more events. *)
Definition logged (st : State) (evs : list Event) : State :=
  {| st_fs := st_fs st; st_trace := st_trace st ++ evs |}.

(** ** The descriptors of [createSIF]

    The four record literals of the function, by name. *)

Definition def_descr (definition : bytes) : DescriptorInput :=
  {| Datatype := DataDeffile; Groupid := DescrDefaultGroup; Link := DescrUnusedLink;
     Size := binary_Size definition; Fname := ""; Fp := None; Data := definition;
     Extra := NoExtra |}.

Definition json_descr (b : Bundle) (name : string) : DescriptorInput :=
  {| Datatype := DataGenericJSON; Groupid := DescrDefaultGroup; Link := DescrUnusedLink;
     Size := binary_Size (JSONObject b name); Fname := name; Fp := None;
     Data := JSONObject b name; Extra := NoExtra |}.

Definition part_descr (squashfile : string) (size : Z) (fs : Fstype) (sifarch : string)
  : DescriptorInput :=
  {| Datatype := DataPartition; Groupid := DescrDefaultGroup; Link := DescrUnusedLink;
     Size := size; Fname := squashfile; Fp := Some squashfile; Data := [];
     Extra := PartExtra fs PartPrimSys sifarch |}.

Definition key_descr (data : bytes) (link : Z) : DescriptorInput :=
  {| Datatype := DataCryptoMessage; Groupid := DescrDefaultGroup; Link := link;
     Size := len data; Fname := ""; Fp := None; Data := data;
     Extra := CryptoMsgExtra FormatPEM MessageRSAOAEP |}.

(** The file-system tag of line 117 to 121. *)
Definition fstype_of (encOpts : option encryptionOptions) : Fstype :=
  match encOpts with Some _ => FsEncryptedSquashfs | None => FsSquash end.

(** The names that get a descriptor, in the order of the loop. *)
Definition emitted_names (b : Bundle) (order : list string) : list string :=
  filter (λ name, JSONObject b name ≠ []) (sort_Strings order).

(** ** The outcomes of [createSIF] *)

(** What the key-wrapping step of lines 131 to 155 answers in a world. *)
Inductive key_stage (w : World) : option encryptionOptions → option bytes → Prop :=
| key_not_requested : key_stage w None None
| key_wrapped opts data :
    w_EncryptKey w (keyInfo opts) (plaintext opts) = Ok data →
    (is_Some data → w_SetCryptoMsgExtra w FormatPEM MessageRSAOAEP = None) →
    key_stage w (Some opts) data.

(** The key-blob descriptor, when the wrapper answered a non-nil slice. *)
Definition key_part (data : option bytes) (link : Z) : list DescriptorInput :=
  match data with Some data => [key_descr data link] | None => [] end.

(** The list up to and including the partition descriptor. *)
Definition front (b : Bundle) (order : list string) (squashfile : string) (size : Z)
    (fs : Fstype) (sifarch : string) : list DescriptorInput :=
  def_descr (Recipe_Raw b) :: (json_descr b <$> emitted_names b order) ++
  [part_descr squashfile size fs sifarch].

(** The file system after [os.RemoveAll path]. *)
Definition removed (w : World) (path : string) (fs : gmap string File) :=
  if w_removeall w then filter (λ kv, within path kv.1 = false) fs else fs.

(** The file the writer leaves at the destination. *)
Definition artifact (w : World) (cinfo : CreateInfo) : File :=
  mkFile (FSIF cinfo) (w_uid w) (w_gid w).

(** How the last part of [createSIF] (lines 157 to 177) can end. *)
Inductive commit_stage (w : World) (path squashfile : string) (cinfo : CreateInfo)
    (fs : gmap string File) : result unit → gmap string File → list Event → Prop :=
| commit_create_failed e :
    w_create w = Some e →
    commit_stage w path squashfile cinfo fs
      (Err (Errorf "while creating container: %s" [] e))
      (delete (Pathname cinfo) (removed w path fs))
      []
| commit_unload_failed e :
    w_create w = None → w_unload w = Some e →
    commit_stage w path squashfile cinfo fs
      (Err (Errorf "while unloading container: %w" [] e))
      (<[Pathname cinfo := artifact w cinfo]> (removed w path fs))
      [EvUnloadContainer (Pathname cinfo)]
| commit_not_chowned uid gid warnings :
    w_create w = None → w_unload w = None →
    (∀ st0, changeOwner w st0 = (Ok (uid, gid, false), logged st0 warnings)) →
    commit_stage w path squashfile cinfo fs
      (Ok ())
      (<[Pathname cinfo := artifact w cinfo]> (removed w path fs))
      (EvUnloadContainer (Pathname cinfo) :: warnings)
| commit_chown_failed uid gid warnings e :
    w_create w = None → w_unload w = None →
    (∀ st0, changeOwner w st0 = (Ok (uid, gid, true), logged st0 warnings)) →
    w_chown w = Some e →
    commit_stage w path squashfile cinfo fs
      (Err (Errorf "while changing image ownership: %s" [] e))
      (<[Pathname cinfo := artifact w cinfo]> (removed w path fs))
      (EvUnloadContainer (Pathname cinfo) :: warnings ++ [EvChown path uid gid])
| commit_chowned uid gid warnings :
    w_create w = None → w_unload w = None →
    (∀ st0, changeOwner w st0 = (Ok (uid, gid, true), logged st0 warnings)) →
    w_chown w = None →
    commit_stage w path squashfile cinfo fs
      (Ok ())
      (alter (chown_file uid gid) path
         (<[Pathname cinfo := artifact w cinfo]> (removed w path fs)))
      (EvUnloadContainer (Pathname cinfo) :: warnings ++ [EvChown path uid gid]).

(** A stage before the writer fails: identifier generation, opening or
    stating the partition file, its extra data, or key wrapping. *)
Definition fails_early (w : World) (fs : gmap string File) (squashfile : string)
    (encOpts : option encryptionOptions) (arch : string) : Prop :=
  is_Ok (w_uuid w) = false ∨ fs !! squashfile = None ∨ is_Some (w_open w) ∨
  is_Ok (w_stat w) = false ∨
  is_Some (w_SetPartExtra w (fstype_of encOpts) PartPrimSys (w_GetSIFArch w arch)) ∨
  ∃ opts, encOpts = Some opts ∧
    (is_Ok (w_EncryptKey w (keyInfo opts) (plaintext opts)) = false ∨
     (∃ data, w_EncryptKey w (keyInfo opts) (plaintext opts) = Ok (Some data)) ∧
     is_Some (w_SetCryptoMsgExtra w FormatPEM MessageRSAOAEP)).

(** The runs of [createSIF]: it stops before the destination is touched,
    or it hands a descriptor list to the writer. *)
Inductive createSIF_outcome (path : string) (b : Bundle) (squashfile : string)
    (encOpts : option encryptionOptions) (arch : string) (w : World) (st : State)
  : result unit * State → Prop :=
| stopped_early e evs :
    evs = [] ∨ evs = [EvOpen squashfile; EvClose squashfile] →
    fails_early w (st_fs st) squashfile encOpts arch →
    createSIF_outcome path b squashfile encOpts arch w st
      (Err e, {| st_fs := st_fs st; st_trace := st_trace st ++ evs |})
| reached_writer id size data r fs' tail :
    w_uuid w = Ok id →
    is_Some (st_fs st !! squashfile) →
    w_open w = None →
    w_stat w = Ok size →
    w_SetPartExtra w (fstype_of encOpts) PartPrimSys (w_GetSIFArch w arch) = None →
    key_stage w encOpts data →
    let ds := front b (w_range w) squashfile size (fstype_of encOpts) (w_GetSIFArch w arch) in
    let cinfo :=
      mkCreateInfo path HdrLaunch HdrVersion id (ds ++ key_part data (uint32 (len ds))) in
    commit_stage w path squashfile cinfo (st_fs st) r fs' tail →
    createSIF_outcome path b squashfile encOpts arch w st
      (r, {| st_fs := fs';
             st_trace := st_trace st ++
               [EvOpen squashfile; EvRemoveAll path; EvCreateContainer cinfo] ++ tail ++
               [EvClose squashfile] |}).

(** ** Statements about runs *)

(** The descriptor lists handed to the container writer during a run. *)
Definition handed (m : M unit) (w : World) (fs : gmap string File)
    (cinfo : CreateInfo) : Prop :=
  EvCreateContainer cinfo ∈ st_trace (run m w fs).2.

(** Nothing stops [createSIF] before the writer. *)
Definition prepared (w : World) (fs : gmap string File) (squashfile : string)
    (encOpts : option encryptionOptions) (arch : string) : Prop :=
  is_Ok (w_uuid w) = true ∧ is_Some (fs !! squashfile) ∧ w_open w = None ∧
  is_Ok (w_stat w) = true ∧
  w_SetPartExtra w (fstype_of encOpts) PartPrimSys (w_GetSIFArch w arch) = None ∧
  ∃ data, key_stage w encOpts data.

(** Strictly below, in the bytewise lexicographic order of Go strings. *)
Definition string_lt (s1 s2 : string) : Prop := String.ltb s1 s2 = true.

(** The descriptors of one type in a list handed to the writer. *)
Definition of_type (t : DataType) (cinfo : CreateInfo) : list DescriptorInput :=
  filter (λ d, Datatype d = t) (InputDescr cinfo).

(** The key-wrapping helper answers nil or a non-empty block, never an
    empty non-nil slice. *)
Definition wrap_answer_ok (w : World) (encOpts : option encryptionOptions) : Prop :=
  ∀ opts, encOpts = Some opts →
          w_EncryptKey w (keyInfo opts) (plaintext opts) ≠ Ok (Some []).

(** The collaborators answer both runs alike; the identifier and the order
    in which the runtime enumerates the metadata are left free. *)
Definition same_answers (w1 w2 : World) (encOpts : option encryptionOptions)
    (arch : string) : Prop :=
  w_stat w1 = w_stat w2 ∧
  w_GetSIFArch w1 arch = w_GetSIFArch w2 arch ∧
  ∀ opts, encOpts = Some opts →
          w_EncryptKey w1 (keyInfo opts) (plaintext opts) =
          w_EncryptKey w2 (keyInfo opts) (plaintext opts).

(** A list of options with one value each, none of them the all-root flag. *)
Definition is_option_pairs (l : list string) : Prop :=
  ∃ pairs : list (string * string),
    l = flat_map (λ '(o, v), [o; v]) pairs ∧
    Forall (λ '(o, _), o ∈ ["-comp"; "-mem"; "-processors"]) pairs.

(** The events [createSIF] can add to the trace. *)
Definition createSIF_event (e : Event) : Prop :=
  match e with
  | EvOpen _ | EvClose _ | EvRemoveAll _ | EvCreateContainer _
  | EvUnloadContainer _ | EvChown _ _ _ | EvLog Warning _ _ => True
  | _ => False
  end.

(** The events of [Assemble] after the squashfs call. *)
Definition late_event (e : Event) : Prop :=
  match e with
  | EvEncryptFilesystem _ _ | EvRemove _ => True
  | _ => createSIF_event e
  end.

(** What the resolver logs. *)
Definition arch_events (w : World) (rootfs : string) : list Event :=
  (if decide (w_ArchFromContainer w rootfs = "")
   then [EvLog Info "Architecture not recognized, use native" []] else []) ++
  [EvLog Verbose "Set SIF container architecture to %s"
     [ArgString (if decide (w_ArchFromContainer w rootfs = "")
                 then w_GOARCH w else w_ArchFromContainer w rootfs)]].

(** ** Concrete bundles, worlds and file systems *)

Module demo.

Definition text (s : string) : bytes := String.list_byte_of_string s.

(** The metadata mapping of the example in the specification. *)
Definition objects : gmap string bytes :=
  <["labels" := text "{}"]> (<["runscript" := text ""]> (<["env" := text "PATH=/"]> ∅)).

Definition bundle (recipe : bytes) (key : option KeyInfo) : Bundle :=
  {| RootfsPath := "/build/rootfs"; TmpDir := "/build/tmp"; JSONObjects := objects;
     Recipe_Raw := recipe; Opts_EncryptionKeyInfo := key |}.

Definition recipe : bytes := text "Bootstrap: docker".

Definition pem_key : KeyInfo :=
  {| Format := PEM; Material := ""; Path := "/keys/rsa_pub.pem" |}.

Definition opts : encryptionOptions :=
  {| keyInfo := pem_key; plaintext := text "0123456789abcdef" |}.

Definition wrapped : bytes := text "-----BEGIN MESSAGE-----".

Definition sudo_env : gmap string string :=
  <["SUDO_COMMAND" := "/usr/local/bin/singularity build out.sif recipe.def"]>
    (<["SUDO_USER" := "alice"]> (<["SUDO_UID" := "1000"]> (<["SUDO_GID" := "1000"]> ∅))).

Definition not_permitted : error := ErrExternal "chown" "operation not permitted".

(** A world in which every collaborator succeeds, up to the given
    environment, user id, identifier and answer of [os.Chown]. *)
Definition world (env : gmap string string) (uid : Z) (id : bytes)
    (order : list string) (chown : option error) : World :=
  {| w_env := env; w_uid := uid; w_gid := uid; w_GOARCH := "amd64";
     w_uuid := Ok id;
     w_range := order;
     w_open := None; w_stat := Ok 4096%Z;
     w_GetSIFArch := λ goarch, if bool_decide (goarch = "amd64") then "02" else "00";
     w_SetPartExtra := λ _ _ _, None;
     w_EncryptKey := λ k _,
       match Format k with PEM => Ok (Some wrapped) | _ => Ok None end;
     w_SetCryptoMsgExtra := λ _ _, None;
     w_removeall := true; w_create := None; w_unload := None; w_chown := chown;
     w_tempfile := Ok "/build/tmp/squashfs-123";
     w_ArchFromContainer := λ _, "";
     w_mksquashfs := λ _ _, Ok (text "hsqs");
     w_NewPlaintextKey := λ _, Ok (text "0123456789abcdef");
     w_EncryptFilesystem := λ _ _, Ok ("/dev/mapper/crypt-1", text "LUKS") |}.

Definition id1 : bytes := [x01; x02; x03; x04].
Definition id2 : bytes := [x0a; x0b; x0c; x0d].

Definition order1 : list string := ["runscript"; "labels"; "env"].
Definition order2 : list string := ["labels"; "env"; "runscript"].

Definition user_world : World := world ∅ 1000 id1 order1 None.
Definition sudo_world (chown : option error) : World :=
  world sudo_env 0 id1 order1 chown.

(** A privileged run whose recorded command only mentions the program
    name inside an argument. *)
Definition backup_env : gmap string string :=
  <["SUDO_COMMAND" := "/bin/tar czf /backup/singularity-cache.tgz /var/cache"]> sudo_env.

Definition assembler : SIFAssembler :=
  {| GzipFlag := true; MksquashfsProcs := 4; MksquashfsMem := "1G";
     MksquashfsPath := "/usr/bin/mksquashfs" |}.

(** The partition file is there, and so is the image of an earlier build. *)
Definition files : gmap string File :=
  <["/build/tmp/squashfs-1" := mkFile (FBytes (text "hsqs")) 1000 1000]>
    (<["/out.sif" := mkFile (FBytes (text "earlier image")) 1000 1000]> ∅).

Definition image (b : Bundle) (id : bytes) (encOpts : option encryptionOptions) : CreateInfo :=
  mkCreateInfo "/out.sif" HdrLaunch HdrVersion id
    ([def_descr (Recipe_Raw b); json_descr b "env"; json_descr b "labels";
      part_descr "/build/tmp/squashfs-1" 4096 (fstype_of encOpts) "02"] ++
     match encOpts with Some _ => [key_descr wrapped 4] | None => [] end).

End demo.

(** ** More vocabulary: frames, layout, and the runs of [Assemble] *)

(** The state a computation started in the middle of a trace ends in. *)
Definition resumed (tr : list Event) (out : result unit * State) : result unit * State :=
  (out.1, {| st_fs := st_fs out.2; st_trace := tr ++ st_trace out.2 |}).

(** What the four record literals of [createSIF] have in common. *)
Definition well_formed (d : DescriptorInput) : Prop :=
  Groupid d = DescrDefaultGroup ∧
  (Datatype d ≠ DataCryptoMessage → Link d = DescrUnusedLink) ∧
  (Datatype d ≠ DataPartition → Fp d = None ∧ Size d = len (Data d)) ∧
  (Datatype d = DataPartition ∨ Datatype d = DataCryptoMessage ↔ Extra d ≠ NoExtra).

(** The architecture [Assemble] settles on (lines 211 to 215). *)
Definition resolved_arch (w : World) (rootfs : string) : string :=
  if decide (w_ArchFromContainer w rootfs = "") then w_GOARCH w
  else w_ArchFromContainer w rootfs.

(** The first line of the log. *)
Definition start_event : Event := EvLog Info "Creating SIF file..." [].

(** The events of [Assemble] up to and including the squashfs call. *)
Definition squashfs_events (a : SIFAssembler) (b : Bundle) (w : World) (name : string)
  : list Event :=
  start_event :: EvTempFile name :: EvClose name ::
  arch_events w (RootfsPath b) ++
  [EvSquashfsCreate (MksquashfsPath a) [RootfsPath b] name (mksquashfs_flags a (w_uid w))].

(** Such an event: a line of the log, the temporary file, the squashfs
    call. *)
Definition early_event (name : string) (e : Event) : Prop :=
  match e with
  | EvLog Info _ _ | EvLog Verbose _ _ | EvSquashfsCreate _ _ _ _ => True
  | EvTempFile n | EvClose n => n = name
  | _ => False
  end.

(** A file written by the running process. *)
Definition scratch (w : World) (data : bytes) : File :=
  mkFile (FBytes data) (w_uid w) (w_gid w).

(** [if err != nil { return fmt.Errorf(format, err) }; return nil] *)
Definition wrap_result (format : string) (r : result unit) : result unit :=
  match r with
  | Ok tt => Ok tt
  | Err e => Err (Errorf format [] e)
  end.

(** The runs of [Assemble]: no temporary file, a failure between the
    temporary file and the call of [createSIF], or that call on the
    squashfs file or on the encrypted device, followed by the deferred
    removals. *)
Inductive Assemble_outcome (a : SIFAssembler) (b : Bundle) (path : string) (w : World)
    (fs : gmap string File) : result unit * State → Prop :=
| no_temp_file e :
    w_tempfile w = Err e ∨
    (∃ name, w_tempfile w = Ok name ∧ is_Some (fs !! name) ∧
             e = ErrExternal "open" "file exists") →
    Assemble_outcome a b path w fs
      (Err (Errorf "while creating temporary file for squashfs: %v" [] e),
       {| st_fs := fs; st_trace := [start_event] |})
| squashfs_failed name e :
    w_tempfile w = Ok name → fs !! name = None →
    w_mksquashfs w [RootfsPath b] (mksquashfs_flags a (w_uid w)) = Err e →
    Assemble_outcome a b path w fs
      (Err (Errorf "while creating squashfs: %v" [] e),
       {| st_fs := fs; st_trace := squashfs_events a b w name ++ [EvRemove name] |})
| plain_build name data :
    w_tempfile w = Ok name → fs !! name = None →
    w_mksquashfs w [RootfsPath b] (mksquashfs_flags a (w_uid w)) = Ok data →
    Opts_EncryptionKeyInfo b = None →
    let inner := run (createSIF path b name None (resolved_arch w (RootfsPath b))) w
                     (<[name := scratch w data]> fs) in
    Assemble_outcome a b path w fs
      (wrap_result "while creating SIF: %v" inner.1,
       {| st_fs := delete name (st_fs inner.2);
          st_trace := squashfs_events a b w name ++ st_trace inner.2 ++ [EvRemove name] |})
| key_failed name data key e :
    w_tempfile w = Ok name → fs !! name = None →
    w_mksquashfs w [RootfsPath b] (mksquashfs_flags a (w_uid w)) = Ok data →
    Opts_EncryptionKeyInfo b = Some key →
    w_NewPlaintextKey w key = Err e →
    Assemble_outcome a b path w fs
      (Err (Errorf "unable to obtain encryption key: %+v" [] e),
       {| st_fs := fs; st_trace := squashfs_events a b w name ++ [EvRemove name] |})
| encrypt_failed name data key plain e :
    w_tempfile w = Ok name → fs !! name = None →
    w_mksquashfs w [RootfsPath b] (mksquashfs_flags a (w_uid w)) = Ok data →
    Opts_EncryptionKeyInfo b = Some key →
    w_NewPlaintextKey w key = Ok plain →
    w_EncryptFilesystem w name plain = Err e →
    Assemble_outcome a b path w fs
      (Err (Errorf "unable to encrypt filesystem at %s: %+v" [name] e),
       {| st_fs := fs; st_trace := squashfs_events a b w name ++ [EvRemove name] |})
| encrypted_build name data key plain loop encrypted :
    w_tempfile w = Ok name → fs !! name = None →
    w_mksquashfs w [RootfsPath b] (mksquashfs_flags a (w_uid w)) = Ok data →
    Opts_EncryptionKeyInfo b = Some key →
    w_NewPlaintextKey w key = Ok plain →
    w_EncryptFilesystem w name plain = Ok (loop, encrypted) →
    let inner := run (createSIF path b loop (Some {| keyInfo := key; plaintext := plain |})
                        (resolved_arch w (RootfsPath b))) w
                     (<[loop := scratch w encrypted]> (<[name := scratch w data]> fs)) in
    Assemble_outcome a b path w fs
      (wrap_result "while creating SIF: %v" inner.1,
       {| st_fs := delete name (delete loop (st_fs inner.2));
          st_trace := squashfs_events a b w name ++ EvEncryptFilesystem name loop ::
                      st_trace inner.2 ++ [EvRemove loop; EvRemove name] |}).

(** ** More concrete worlds: builds that fail *)

Module failing.

Definition no_entropy : error := ErrExternal "uuid" "could not read random bytes".

Definition out_of_space : error := ErrExternal "mksquashfs" "no space left on device".

(** The world [w], except that no identifier can be generated. *)
Definition without_identifier (w : World) : World :=
  {| w_env := w_env w; w_uid := w_uid w; w_gid := w_gid w; w_GOARCH := w_GOARCH w;
     w_uuid := Err no_entropy;
     w_range := w_range w; w_open := w_open w; w_stat := w_stat w;
     w_GetSIFArch := w_GetSIFArch w; w_SetPartExtra := w_SetPartExtra w;
     w_EncryptKey := w_EncryptKey w; w_SetCryptoMsgExtra := w_SetCryptoMsgExtra w;
     w_removeall := w_removeall w; w_create := w_create w; w_unload := w_unload w;
     w_chown := w_chown w; w_tempfile := w_tempfile w;
     w_ArchFromContainer := w_ArchFromContainer w; w_mksquashfs := w_mksquashfs w;
     w_NewPlaintextKey := w_NewPlaintextKey w;
     w_EncryptFilesystem := w_EncryptFilesystem w |}.

(** The world [w], except that the compressor runs out of space. *)
Definition without_squashfs (w : World) : World :=
  {| w_env := w_env w; w_uid := w_uid w; w_gid := w_gid w; w_GOARCH := w_GOARCH w;
     w_uuid := w_uuid w;
     w_range := w_range w; w_open := w_open w; w_stat := w_stat w;
     w_GetSIFArch := w_GetSIFArch w; w_SetPartExtra := w_SetPartExtra w;
     w_EncryptKey := w_EncryptKey w; w_SetCryptoMsgExtra := w_SetCryptoMsgExtra w;
     w_removeall := w_removeall w; w_create := w_create w; w_unload := w_unload w;
     w_chown := w_chown w; w_tempfile := w_tempfile w;
     w_ArchFromContainer := w_ArchFromContainer w;
     w_mksquashfs := λ _ _, Err out_of_space;
     w_NewPlaintextKey := w_NewPlaintextKey w;
     w_EncryptFilesystem := w_EncryptFilesystem w |}.

(** A privileged run whose recorded user id is a name. *)
Definition named_uid_world : World :=
  demo.world (<["SUDO_UID" := "alice"]> demo.sudo_env) 0 demo.id1 demo.order1 None.

(** A privileged run in a larger environment, with another identifier,
    another enumeration order and a refused ownership change. *)
Definition other_sudo_world : World :=
  demo.world (<["HOME" := "/root"]> demo.sudo_env) 0 demo.id2 demo.order2
    (Some demo.not_permitted).

Definition plain : Bundle := demo.bundle demo.recipe None.

Definition sealed : Bundle := demo.bundle demo.recipe (Some demo.pem_key).


End failing.

(** * Properties *)

Ltac unfold_prims :=
  unfold wrap, wrapf, defer, uuid_NewV4, range_keys, os_Open, File_Close,
    File_Stat_Size, sif_GetSIFArch, SetPartExtra, cryptkey_EncryptKey,
    SetCryptoMsgExtra, os_RemoveAll, os_Remove, sif_CreateContainer, UnloadContainer,
    os_Chown, os_Getenv, syscall_Getuid, sylog_Infof, sylog_Verbosef,
    sylog_Warningf, machine_ArchFromContainer, Squashfs_Create,
    cryptkey_NewPlaintextKey, EncryptFilesystem, write_file, ioutil_TempFile,
    ask, ask_result, ask_error, emit, get_fs, modify_fs, fail,
    mbind, M_bind, mret, M_ret in *.

(** ** The ownership decision *)

Section prefix_facts.

Lemma prefix_app (p s : string) : String.prefix p (p +:+ s) = true.
Proof.
  induction p as [|c p IH]; [by destruct s|].
  change (String c p +:+ s) with (String c (p +:+ s)). cbn.
  destruct (ascii_dec c c); [done|congruence].
Qed.

Lemma prefix_inv (p s : string) :
  String.prefix p s = true → ∃ t, s = p +:+ t.
Proof.
  revert s. induction p as [|c p IH]; intros s.
  - intros _. by exists s.
  - destruct s as [|d s]; cbn; [done|].
    destruct (ascii_dec c d) as [->|]; [|done].
    intros [t ->]%IH. by exists t.
Qed.

(** [MatchString] is an unanchored search for the literal. *)
Lemma MatchString_iff (lit s : string) :
  MatchString lit s = true ↔ ∃ pre post, s = pre +:+ lit +:+ post.
Proof.
  split.
  - induction s as [|c s IH].
    + change (MatchString lit "") with (String.prefix lit "" || false).
      rewrite orb_false_r. intros [t Ht]%prefix_inv. by exists "", t.
    + change (MatchString lit (String c s))
        with (String.prefix lit (String c s) || MatchString lit s).
      intros [[t Ht]%prefix_inv|(pre & post & ->)%IH]%orb_true_iff.
      * by exists "", t.
      * by exists (String c pre), post.
  - intros (pre & post & ->). induction pre as [|c pre IH].
    + change ("" +:+ lit +:+ post) with (lit +:+ post).
      pose proof (prefix_app lit post) as Hp.
      destruct (lit +:+ post); cbn [MatchString]; by rewrite Hp.
    + change (String c pre +:+ lit +:+ post) with (String c (pre +:+ lit +:+ post)).
      cbn [MatchString]. rewrite IH. apply orb_true_r.
Qed.

End prefix_facts.

Local Ltac owner_eq :=
  intros [fs tr]; unfold changeOwner, logged; unfold_prims; cbn;
  repeat match goal with
  | H : MatchString _ _ = _ |- _ => rewrite H; cbn
  | H : strconv_Atoi _ = _ |- _ => rewrite H; cbn
  | H : _ = _ → False |- _ => rewrite (bool_decide_eq_false_2 _ H); cbn
  | H : _ ≠ _ |- _ => rewrite (bool_decide_eq_false_2 _ H); cbn
  | H : getenv _ _ = "" |- _ => rewrite (bool_decide_eq_true_2 _ H); cbn
  | H : w_uid _ = 0%Z |- _ => rewrite (bool_decide_eq_true_2 _ H); cbn
  end;
  rewrite ?app_nil_r; reflexivity.

Local Ltac decided :=
  repeat split; eauto; try done; try (by repeat constructor);
  intuition (try discriminate; try congruence).

(** The run of [changeOwner]: it returns in every world, does not touch the
    file system, logs at most warnings, and its answer depends on the
    world only. *)
Lemma changeOwner_run (w : World) :
  ∃ uid gid ok warnings,
    (∀ st, changeOwner w st = (Ok (uid, gid, ok), logged st warnings)) ∧
    Forall is_warning warnings ∧
    (MatchString "singularity" (getenv w "SUDO_COMMAND") = false →
       ok = false ∧ warnings = []) ∧
    (getenv w "SUDO_USER" = "" ∨ w_uid w ≠ 0%Z → ok = false ∧ warnings = []) ∧
    (MatchString "singularity" (getenv w "SUDO_COMMAND") = true →
     getenv w "SUDO_USER" ≠ "" → w_uid w = 0%Z →
     is_Ok (strconv_Atoi (getenv w "SUDO_UID")) = false ∨
     is_Ok (strconv_Atoi (getenv w "SUDO_GID")) = false →
       ok = false ∧ ∃ warning, warnings = [warning]) ∧
    (ok = true ↔
       MatchString "singularity" (getenv w "SUDO_COMMAND") = true ∧
       getenv w "SUDO_USER" ≠ "" ∧ w_uid w = 0%Z ∧
       strconv_Atoi (getenv w "SUDO_UID") = Ok uid ∧
       strconv_Atoi (getenv w "SUDO_GID") = Ok gid) ∧
    (ok = false → uid = 0%Z ∧ gid = 0%Z).
Proof.
  destruct (MatchString "singularity" (getenv w "SUDO_COMMAND")) eqn:Hcmd.
  2: { exists 0%Z, 0%Z, false, []. split; [owner_eq|decided]. }
  destruct (decide (getenv w "SUDO_USER" = "")) as [Hu|Hu].
  { exists 0%Z, 0%Z, false, []. split; [owner_eq|decided]. }
  destruct (decide (w_uid w = 0%Z)) as [Hz|Hz].
  2: { exists 0%Z, 0%Z, false, []. split; [owner_eq|decided]. }
  destruct (decide (getenv w "SUDO_UID" = "")) as [Hi|Hi].
  { eexists 0%Z, 0%Z, false, [_]. split; [owner_eq|]. rewrite Hi. decided. }
  destruct (decide (getenv w "SUDO_GID" = "")) as [Hg|Hg].
  { eexists 0%Z, 0%Z, false, [_]. split; [owner_eq|]. rewrite Hg. decided. }
  destruct (strconv_Atoi (getenv w "SUDO_UID")) as [uid|e1] eqn:H1.
  2: { eexists 0%Z, 0%Z, false, [_]. split; [owner_eq|decided]. }
  destruct (strconv_Atoi (getenv w "SUDO_GID")) as [gid|e2] eqn:H2.
  2: { eexists 0%Z, 0%Z, false, [_]. split; [owner_eq|decided]. }
  exists uid, gid, true, []. split; [owner_eq|decided].
Qed.

(** ** The runs of [createSIF] *)

(** The loop of lines 77 to 92 in closed form. *)
Lemma foldl_add_JSONObject b l c :
  foldl (add_JSONObject b) c l =
  mkCreateInfo (Pathname c) (Launchstr c) (Sifversion c) (ID c)
    (InputDescr c ++ (json_descr b <$> filter (λ name, JSONObject b name ≠ []) l)).
Proof.
  revert c. induction l as [|n l IH]; intros c; simpl.
  - rewrite app_nil_r. by destruct c.
  - rewrite IH, filter_cons. unfold add_JSONObject.
    case_decide as Hn.
    + rewrite bool_decide_eq_true_2.
      * simpl. by rewrite <- app_assoc.
      * unfold len. destruct (JSONObject b n); [done|simpl; lia].
    + rewrite bool_decide_eq_false_2; [done|].
      rewrite Hn. unfold len. simpl. lia.
Qed.

Arguments changeOwner : simpl never.

(** A run that stops before the partition file is open adds no event. *)
Lemma stopped_at_once path b squashfile encOpts arch w st e :
  (is_Ok (w_uuid w) = false ∨ st_fs st !! squashfile = None ∨ is_Some (w_open w)) →
  createSIF_outcome path b squashfile encOpts arch w st (Err e, st).
Proof.
  intros H. destruct st as [fs tr].
  rewrite <- (app_nil_r tr) at 2.
  apply (stopped_early _ _ _ _ _ _ (mkState fs tr) e []); [by left|].
  unfold fails_early. destruct H as [?|[?|?]]; auto.
Qed.

(** [reached_writer], with the final state up to equality. *)
Lemma reached_writer_eq path b squashfile encOpts arch w st id size data r fs' tail out :
  w_uuid w = Ok id →
  is_Some (st_fs st !! squashfile) →
  w_open w = None →
  w_stat w = Ok size →
  w_SetPartExtra w (fstype_of encOpts) PartPrimSys (w_GetSIFArch w arch) = None →
  key_stage w encOpts data →
  let ds := front b (w_range w) squashfile size (fstype_of encOpts) (w_GetSIFArch w arch) in
  let cinfo :=
    mkCreateInfo path HdrLaunch HdrVersion id (ds ++ key_part data (uint32 (len ds))) in
  commit_stage w path squashfile cinfo (st_fs st) r fs' tail →
  out = (r, {| st_fs := fs';
               st_trace := st_trace st ++
                 [EvOpen squashfile; EvRemoveAll path; EvCreateContainer cinfo] ++ tail ++
                 [EvClose squashfile] |}) →
  createSIF_outcome path b squashfile encOpts arch w st out.
Proof. intros. subst out. by eapply reached_writer. Qed.

Local Ltac commit_leaf lem :=
  eapply reached_writer_eq; [eassumption..| |eapply lem; eauto|];
  [try (by constructor); eauto| ];
  cbn; unfold removed, artifact, append_descr, set_Extra, front, key_part, def_descr,
    part_descr, key_descr, emitted_names;
  repeat match goal with H : _ = _ |- _ => rewrite H end; unfold logged;
  cbn; rewrite <- ?app_assoc; reflexivity.

Local Ltac owner_run w :=
  let E := fresh "Hown" in
  destruct (changeOwner_run w) as (uid & gid & [] & warnings & E & _);
  rewrite E; unfold logged; cbn;
  [destruct (w_chown w) eqn:?; cbn;
   [commit_leaf commit_chown_failed|commit_leaf commit_chowned]
  |commit_leaf commit_not_chowned].

Local Ltac unload_run w :=
  destruct (w_unload w) eqn:?; cbn; [commit_leaf commit_unload_failed|owner_run w].

Local Ltac create_run w :=
  destruct (w_create w) eqn:?; cbn; [commit_leaf commit_create_failed|unload_run w].

Local Ltac commit_run w := destruct (w_removeall w) eqn:?; cbn; create_run w.

(** Every run of [createSIF] is one of the outcomes, by symbolic execution
    of the function along what the world answers. *)
Lemma createSIF_run path b squashfile encOpts arch w st :
  createSIF_outcome path b squashfile encOpts arch w st
    (createSIF path b squashfile encOpts arch w st).
Proof.
  unfold createSIF. unfold_prims. cbn.
  destruct (w_uuid w) as [id|e] eqn:Hid; cbn.
  2: { apply stopped_at_once. rewrite Hid. auto. }
  destruct (st_fs st !! squashfile) as [f|] eqn:Hsq; cbn.
  2: { apply stopped_at_once; auto. }
  assert (is_Some (st_fs st !! squashfile)) as Hsome by (by rewrite Hsq).
  clear f Hsq.
  destruct (w_open w) as [e|] eqn:Hopen; cbn.
  { apply stopped_at_once. rewrite Hopen. auto. }
  rewrite foldl_add_JSONObject. cbn.
  destruct (w_stat w) as [size|e] eqn:Hstat; cbn.
  2: { rewrite <- app_assoc. cbn. apply stopped_early; [by right|].
       unfold fails_early. rewrite Hstat. auto 10. }
  fold (fstype_of encOpts).
  destruct (w_SetPartExtra w (fstype_of encOpts) PartPrimSys (w_GetSIFArch w arch))
    as [e|] eqn:Hextra; cbn.
  { rewrite <- app_assoc. cbn. apply stopped_early; [by right|].
    unfold fails_early. rewrite Hextra. auto 10. }
  destruct encOpts as [opts|]; cbn.
  - destruct (w_EncryptKey w (keyInfo opts) (plaintext opts)) as [[data|]|e] eqn:Hkey; cbn.
    + destruct (w_SetCryptoMsgExtra w FormatPEM MessageRSAOAEP) as [e|] eqn:Hmsg; cbn.
      * rewrite <- app_assoc. cbn. apply stopped_early; [by right|].
        unfold fails_early. do 5 right. exists opts. split; [done|]. right.
        rewrite Hmsg. eauto.
      * assert (key_stage w (Some opts) (Some data)) by (by constructor).
        commit_run w.
    + assert (key_stage w (Some opts) None).
      { constructor; [done|]. by intros []. }
      commit_run w.
    + rewrite <- app_assoc. cbn. apply stopped_early; [by right|].
      unfold fails_early. do 5 right. exists opts. split; [done|]. left. by rewrite Hkey.
  - pose proof (key_not_requested w). commit_run w.
Qed.

(** After the call of the writer come the finalize call, warnings and at
    most a change of owner. *)
Lemma commit_stage_events w path squashfile cinfo fs r fs' tail :
  commit_stage w path squashfile cinfo fs r fs' tail →
  Forall (λ e, is_warning e ∨ e = EvUnloadContainer (Pathname cinfo) ∨
               ∃ uid gid warnings,
                 e = EvChown path uid gid ∧
                 ∀ st, changeOwner w st = (Ok (uid, gid, true), logged st warnings)) tail.
Proof.
  destruct 1 as [| |uid gid ws ?? Hown|uid gid ws e ?? Hown|uid gid ws ?? Hown];
    repeat first [apply Forall_cons; split | apply Forall_app; split | apply Forall_nil];
    eauto 10.
  all: destruct (changeOwner_run w) as (?&?&?&ws'&E&Hw&_);
    specialize (Hown (mkState ∅ [])); rewrite E in Hown;
    injection Hown as _ _ _ <-;
    eapply Forall_impl; [exact Hw|]; cbn; auto.
Qed.

(** A stage cannot both fail and succeed. *)
Lemma fails_early_absurd w fs squashfile encOpts arch id size data :
  fails_early w fs squashfile encOpts arch →
  w_uuid w = Ok id → is_Some (fs !! squashfile) → w_open w = None →
  w_stat w = Ok size →
  w_SetPartExtra w (fstype_of encOpts) PartPrimSys (w_GetSIFArch w arch) = None →
  key_stage w encOpts data →
  False.
Proof.
  intros Hwhy Hid Hsq Hopen Hstat Hextra Hkey.
  destruct Hwhy as [Hw|[Hw|[Hw|[Hw|[Hw|(opts & -> & Hw)]]]]].
  - by rewrite Hid in Hw.
  - rewrite Hw in Hsq. by destruct Hsq.
  - rewrite Hopen in Hw. by destruct Hw.
  - by rewrite Hstat in Hw.
  - rewrite Hextra in Hw. by destruct Hw.
  - inversion Hkey as [|? ? Hk Hm]; subst.
    destruct Hw as [Hw|[[d Hd] Hw]].
    + by rewrite Hk in Hw.
    + rewrite Hk in Hd. injection Hd as ->.
      rewrite Hm in Hw by eauto. by destruct Hw.
Qed.

(** What the writer is handed, and when: the closed form of the list that
    lines 42 to 155 build. *)
Lemma createSIF_handed path b squashfile encOpts arch w fs cinfo :
  handed (createSIF path b squashfile encOpts arch) w fs cinfo ↔
  ∃ id size data,
    w_uuid w = Ok id ∧ is_Some (fs !! squashfile) ∧ w_open w = None ∧
    w_stat w = Ok size ∧
    w_SetPartExtra w (fstype_of encOpts) PartPrimSys (w_GetSIFArch w arch) = None ∧
    key_stage w encOpts data ∧
    let ds := front b (w_range w) squashfile size (fstype_of encOpts) (w_GetSIFArch w arch) in
    cinfo = mkCreateInfo path HdrLaunch HdrVersion id (ds ++ key_part data (uint32 (len ds))).
Proof.
  unfold handed, run.
  pose proof (createSIF_run path b squashfile encOpts arch w (mkState fs [])) as Hrun.
  inversion Hrun
    as [e evs Hevs Hwhy|id size data r fs' tail Hid Hsq Hopen Hstat Hextra Hkey ds c Hcommit];
    cbn in *.
  - split.
    + destruct Hevs as [->| ->]; cbn;
        rewrite ?elem_of_cons, ?elem_of_nil; intuition discriminate.
    + intros (id & size & data & Hid & Hsq & Hopen & Hstat & Hextra & Hkey & _).
      exfalso. by eapply fails_early_absurd.
  - split.
    + intros Hin. exists id, size, data. repeat split; auto.
      apply commit_stage_events in Hcommit.
      rewrite !elem_of_cons, elem_of_app, elem_of_cons in Hin.
      destruct Hin as [Hin|[Hin|[Hin|[Hin|[Hin|Hin]]]]]; try discriminate Hin.
      * by injection Hin as ->.
      * rewrite Forall_forall in Hcommit. apply Hcommit in Hin.
        destruct Hin as [[]|[?|(?&?&?&?&?)]]; done.
      * by apply elem_of_nil in Hin.
    + intros (id' & size' & data' & Hid' & _ & _ & Hstat' & _ & Hkey' & ->).
      assert (id' = id) as -> by congruence.
      assert (size' = size) as -> by congruence.
      assert (data' = data) as ->.
      { inversion Hkey; inversion Hkey'; subst; try done. congruence. }
      rewrite !elem_of_cons. auto.
Qed.

(** The writer is reached exactly when no earlier stage fails. *)
Lemma createSIF_prepared path b squashfile encOpts arch w fs :
  prepared w fs squashfile encOpts arch ↔
  ∃ cinfo, handed (createSIF path b squashfile encOpts arch) w fs cinfo.
Proof.
  split.
  - intros (Hid & Hsq & Hopen & Hstat & Hextra & data & Hkey).
    destruct (w_uuid w) as [id|] eqn:Eid; [|done].
    destruct (w_stat w) as [size|] eqn:Estat; [|done].
    eexists. apply createSIF_handed. exists id, size, data. eauto 10.
  - intros (cinfo & (id & size & data & Hid & Hsq & Hopen & Hstat & Hextra & Hkey & _)%createSIF_handed).
    unfold prepared. rewrite Hid, Hstat. eauto 10.
Qed.

(** When an earlier stage fails, the writer is handed nothing. *)
Lemma fails_early_not_handed path b squashfile encOpts arch w fs cinfo :
  fails_early w fs squashfile encOpts arch →
  ¬ handed (createSIF path b squashfile encOpts arch) w fs cinfo.
Proof.
  intros Hwhy Hin. apply createSIF_handed in Hin
    as (id & size & data & Hid & Hsq & Hopen & Hstat & Hextra & Hkey & _).
  by eapply fails_early_absurd.
Qed.

(** *** The two ways a run can go *)

(** A run either stops with an error and an untouched file system, or goes
    through removal, writer call and commit stage. *)
Lemma createSIF_cases path b squashfile encOpts arch w fs :
  (∃ e evs,
     run (createSIF path b squashfile encOpts arch) w fs =
       (Err e, {| st_fs := fs; st_trace := evs |}) ∧
     (evs = [] ∨ evs = [EvOpen squashfile; EvClose squashfile]) ∧
     fails_early w fs squashfile encOpts arch) ∨
  (∃ cinfo r fs' tail,
     Pathname cinfo = path ∧
     commit_stage w path squashfile cinfo fs r fs' tail ∧
     run (createSIF path b squashfile encOpts arch) w fs =
       (r, {| st_fs := fs';
              st_trace := [EvOpen squashfile; EvRemoveAll path; EvCreateContainer cinfo] ++
                          tail ++ [EvClose squashfile] |})).
Proof.
  unfold run.
  pose proof (createSIF_run path b squashfile encOpts arch w (mkState fs [])) as Hrun.
  remember (createSIF path b squashfile encOpts arch w (mkState fs [])) as out eqn:Hout.
  clear Hout.
  destruct Hrun as [e evs Hevs Hwhy|id size data r fs' tail _ _ _ _ _ _ ds c Hcommit].
  - left. eauto.
  - right. exists c, r, fs', tail. eauto.
Qed.

(** The writer is called at most once in a run. *)
Lemma handed_unique path b squashfile encOpts arch w fs c1 c2 :
  handed (createSIF path b squashfile encOpts arch) w fs c1 →
  handed (createSIF path b squashfile encOpts arch) w fs c2 →
  c1 = c2.
Proof.
  intros (id & size & data & Hid & _ & _ & Hstat & _ & Hkey & ->)%createSIF_handed.
  intros (id' & size' & data' & Hid' & _ & _ & Hstat' & _ & Hkey' & ->)%createSIF_handed.
  assert (id' = id) as -> by congruence.
  assert (size' = size) as -> by congruence.
  assert (data' = data) as ->; [|done].
  inversion Hkey; inversion Hkey'; subst; try done. congruence.
Qed.

(** Once the writer has succeeded, its container is at the destination,
    however the rest of the commit stage ends. *)
Lemma commit_stage_artifact w path squashfile cinfo fs r fs' tail :
  commit_stage w path squashfile cinfo fs r fs' tail →
  Pathname cinfo = path →
  w_create w = None →
  ∃ f, fs' !! path = Some f ∧ f_content f = FSIF cinfo.
Proof.
  intros Hc <- Hcreate. destruct Hc; try congruence.
  - eexists. by rewrite lookup_insert_eq.
  - eexists. by rewrite lookup_insert_eq.
  - eexists. by rewrite lookup_insert_eq.
  - eexists. rewrite lookup_alter_eq, lookup_insert_eq. cbn. done.
Qed.

(** A commit stage that returns no error has created the container. *)
Lemma commit_stage_returns w path squashfile cinfo fs fs' tail :
  commit_stage w path squashfile cinfo fs (Ok ()) fs' tail → w_create w = None.
Proof. by inversion 1. Qed.

(** A run that reaches the writer, taken apart. *)
Lemma createSIF_reached path b squashfile encOpts arch w fs cinfo :
  handed (createSIF path b squashfile encOpts arch) w fs cinfo →
  Pathname cinfo = path ∧
  ∃ r fs' tail,
    commit_stage w path squashfile cinfo fs r fs' tail ∧
    run (createSIF path b squashfile encOpts arch) w fs =
      (r, {| st_fs := fs';
             st_trace := [EvOpen squashfile; EvRemoveAll path; EvCreateContainer cinfo] ++
                         tail ++ [EvClose squashfile] |}).
Proof.
  intros Hin.
  destruct (createSIF_cases path b squashfile encOpts arch w fs)
    as [(e & evs & Heq & Hevs & Hwhy)|(c & r & fs' & tail & Hpath & Hcommit & Heq)].
  - exfalso. by eapply fails_early_not_handed.
  - assert (cinfo = c) as ->; [|by eauto 10].
    eapply handed_unique; [done|].
    unfold handed. rewrite Heq. cbn. rewrite !elem_of_cons. auto.
Qed.

(** ** Sorting *)

Section sorting_facts.

(** [String.le] without equality is [String.ltb]. *)
Lemma le_ne_lt (s1 s2 : string) : String.le s1 s2 → s1 ≠ s2 → string_lt s1 s2.
Proof.
  unfold String.le, string_lt, String.leb, String.ltb.
  destruct (String.compare s1 s2) eqn:E; try done.
  apply String.compare_eq_iff in E. done.
Qed.

(** Filtering keeps a list sorted. *)
Lemma StronglySorted_filter {A} (R : relation A) (P : A → Prop)
    `{∀ x, Decision (P x)} (l : list A) :
  StronglySorted R l → StronglySorted R (filter P l).
Proof.
  induction 1 as [|x l Hl IH Hx]; [constructor|].
  rewrite filter_cons. case_decide; [|done].
  constructor; [done|].
  apply Forall_forall. intros y [_ Hy]%list_elem_of_filter.
  rewrite Forall_forall in Hx. auto.
Qed.

(** A sorted list without duplicates is strictly sorted. *)
Lemma StronglySorted_strict (l : list string) :
  StronglySorted String.le l → NoDup l → StronglySorted string_lt l.
Proof.
  induction 1 as [|x l Hl IH Hx]; [constructor|].
  intros [Hnin Hnd]%NoDup_cons. constructor; [auto|].
  apply Forall_forall. intros y Hy. rewrite Forall_forall in Hx.
  apply le_ne_lt; [auto|]. intros ->. done.
Qed.

(** [sort.Strings] permutes its argument ... *)
Lemma sort_Strings_perm (l : list string) : sort_Strings l ≡ₚ l.
Proof. apply merge_sort_Permutation. Qed.

(** ... into ascending order, *)
Lemma sort_Strings_sorted (l : list string) : StronglySorted String.le (sort_Strings l).
Proof. apply StronglySorted_merge_sort; apply _. Qed.

(** strictly ascending when the strings are distinct. *)
Lemma sort_Strings_strict (l : list string) :
  NoDup l → StronglySorted string_lt (sort_Strings l).
Proof.
  intros Hnd. apply StronglySorted_strict; [apply sort_Strings_sorted|].
  by rewrite sort_Strings_perm.
Qed.

(** The result of sorting depends on the elements only. *)
Lemma sort_Strings_unique (l1 l2 : list string) :
  l1 ≡ₚ l2 → sort_Strings l1 = sort_Strings l2.
Proof.
  intros Hp. apply (StronglySorted_unique String.le); try apply sort_Strings_sorted.
  by rewrite !sort_Strings_perm.
Qed.

End sorting_facts.

(** ** Picking descriptors by type *)

(** Metadata descriptors have type [DataGenericJSON] and no other. *)
Lemma filter_json_descr (t : DataType) (b : Bundle) (names : list string) :
  filter (λ d, Datatype d = t) (json_descr b <$> names) =
  if decide (t = DataGenericJSON) then json_descr b <$> names else [].
Proof.
  induction names as [|n names IH]; [by case_decide|].
  rewrite fmap_cons, filter_cons, IH. cbn [Datatype json_descr].
  destruct (decide (t = DataGenericJSON)) as [->|Hne].
  - by rewrite decide_True.
  - by rewrite decide_False by done.
Qed.

(** The descriptors of one type in the list that [createSIF] builds. *)
Lemma of_type_built (t : DataType) path launch version id b order squashfile size fs sifarch
    data link :
  of_type t (mkCreateInfo path launch version id
               (front b order squashfile size fs sifarch ++ key_part data link)) =
  (if decide (t = DataDeffile) then [def_descr (Recipe_Raw b)] else []) ++
  (if decide (t = DataGenericJSON) then json_descr b <$> emitted_names b order else []) ++
  (if decide (t = DataPartition) then [part_descr squashfile size fs sifarch] else []) ++
  (if decide (t = DataCryptoMessage) then key_part data link else []).
Proof.
  unfold of_type, front. cbn [InputDescr].
  rewrite filter_app, filter_cons, filter_app, filter_json_descr.
  cbn [Datatype def_descr].
  assert (filter (λ d, Datatype d = t) [part_descr squashfile size fs sifarch] =
          if decide (t = DataPartition) then [part_descr squashfile size fs sifarch] else [])
    as ->.
  { rewrite filter_cons, filter_nil. cbn [Datatype part_descr]. by repeat case_decide. }
  assert (filter (λ d, Datatype d = t) (key_part data link) =
          if decide (t = DataCryptoMessage) then key_part data link else []) as ->.
  { destruct data as [d|]; cbn [key_part]; [|by case_decide].
    rewrite filter_cons, filter_nil. cbn [Datatype key_descr]. by repeat case_decide. }
  destruct t; repeat (case_decide; try done); cbn; by rewrite <- ?app_assoc, ?app_nil_r.
Qed.

(** ** The descriptor list *)

(** C1.  In every run of [createSIF], the list handed to the container
    writer starts with the definition-file descriptor, whose data are the
    raw recipe bytes of the bundle and whose size is their length; for an
    empty recipe that is a descriptor with no data and size zero.  Whether
    the writer is reached at all depends on the collaborators only
    ([prepared] does not mention the bundle), so an empty recipe neither
    drops the descriptor nor makes the run fail. *)
Theorem definition_descriptor_first path b squashfile encOpts arch w fs :
  (∀ cinfo, handed (createSIF path b squashfile encOpts arch) w fs cinfo →
     ∃ d rest,
       InputDescr cinfo = d :: rest ∧ Datatype d = DataDeffile ∧
       Data d = Recipe_Raw b ∧ Size d = len (Recipe_Raw b) ∧
       (Recipe_Raw b = [] → Data d = [] ∧ Size d = 0%Z)) ∧
  (prepared w fs squashfile encOpts arch ↔
   ∃ cinfo, handed (createSIF path b squashfile encOpts arch) w fs cinfo).
Proof.
  split; [|apply createSIF_prepared].
  intros cinfo (id & size & data & _ & _ & _ & _ & _ & _ & ->)%createSIF_handed.
  eexists _, _. cbn. do 4 (split; [reflexivity|]).
  by intros ->.
Qed.

(** A name gets a descriptor exactly when its blob is non-empty. *)
Lemma emitted_names_iff (b : Bundle) (order : list string) (name : string) :
  list_to_set order =@{gset string} dom (JSONObjects b) →
  name ∈ emitted_names b order ↔
  ∃ blob, JSONObjects b !! name = Some blob ∧ blob ≠ [].
Proof.
  intros Hdom. unfold emitted_names.
  rewrite list_elem_of_filter, sort_Strings_perm.
  rewrite <- (elem_of_list_to_set (C:=gset string)), Hdom, elem_of_dom.
  unfold JSONObject. split.
  - intros [Hne [blob Hb]]. rewrite Hb in Hne. eauto.
  - intros (blob & Hb & Hne). rewrite Hb. eauto.
Qed.

(** The names that get a descriptor are strictly ascending. *)
Lemma emitted_names_sorted (b : Bundle) (order : list string) :
  NoDup order → StronglySorted string_lt (emitted_names b order).
Proof. intros. by apply StronglySorted_filter, sort_Strings_strict. Qed.

(** A strictly ascending list has no duplicates. *)
Lemma StronglySorted_lt_NoDup (l : list string) : StronglySorted string_lt l → NoDup l.
Proof.
  induction 1 as [|x l Hl IH Hx]; constructor; [|done].
  intros Hin. rewrite Forall_forall in Hx. specialize (Hx _ Hin).
  unfold string_lt, String.ltb in Hx.
  pose proof (String.compare_antisym x x) as Ha.
  by destruct (String.compare x x).
Qed.

(** There are as many descriptors as non-empty entries in the mapping. *)
Lemma emitted_names_length (b : Bundle) (order : list string) :
  NoDup order → list_to_set order =@{gset string} dom (JSONObjects b) →
  length (emitted_names b order) = size (filter (λ kv, kv.2 ≠ []) (JSONObjects b)).
Proof.
  intros Hnd Hdom. rewrite <- length_map_to_list, <- (length_fmap fst).
  apply Permutation_length, NoDup_Permutation.
  - by apply StronglySorted_lt_NoDup, emitted_names_sorted.
  - apply NoDup_fst_map_to_list.
  - intros name. rewrite emitted_names_iff by done.
    rewrite list_elem_of_fmap. split.
    + intros (blob & Hb & Hne). exists (name, blob). split; [done|].
      apply elem_of_map_to_list. by apply map_lookup_filter_Some.
    + intros ([n blob] & -> & [Hb Hne]%elem_of_map_to_list%map_lookup_filter_Some).
      eauto.
Qed.

(** C2.  Whatever order the runtime enumerates the metadata mapping in,
    the metadata descriptors handed to the writer come right after the
    definition descriptor, their names are strictly ascending in the
    bytewise lexicographic order, and a name has a descriptor exactly when
    its blob in the mapping is non-empty: one descriptor for each such
    entry, carrying that blob, and none (not even an empty one) for an
    entry with an empty blob. *)
Theorem metadata_descriptors_sorted path b squashfile encOpts arch w fs cinfo :
  range_ok w b →
  handed (createSIF path b squashfile encOpts arch) w fs cinfo →
  let metas := of_type DataGenericJSON cinfo in
  StronglySorted string_lt (Fname <$> metas) ∧
  (∀ name, name ∈ Fname <$> metas ↔
           ∃ blob, JSONObjects b !! name = Some blob ∧ blob ≠ []) ∧
  (∀ d, d ∈ metas →
        JSONObjects b !! Fname d = Some (Data d) ∧ Data d ≠ [] ∧
        Size d = len (Data d) ∧ Size d ≠ 0%Z) ∧
  length metas = size (filter (λ kv, kv.2 ≠ []) (JSONObjects b)) ∧
  ∃ definition rest, InputDescr cinfo = definition :: metas ++ rest.
Proof.
  intros [Hnd Hdom] (id & size & data & _ & _ & _ & _ & _ & _ & ->)%createSIF_handed.
  intros metas. subst metas. rewrite of_type_built.
  repeat (case_decide; try done). cbn [app]. rewrite app_nil_r.
  assert (Fname <$> (json_descr b <$> emitted_names b (w_range w)) =
          emitted_names b (w_range w)) as Hnames.
  { rewrite <- list_fmap_compose. apply list_fmap_id. }
  rewrite Hnames. split; [by apply emitted_names_sorted|].
  split; [intros; by apply emitted_names_iff|].
  split.
  - intros d (name & -> & Hin)%list_elem_of_fmap. cbn.
    apply emitted_names_iff in Hin as (blob & Hb & Hne); [|done].
    unfold JSONObject, binary_Size. rewrite Hb. cbn. repeat split; [done|].
    unfold len. destruct blob; [done|cbn; lia].
  - split; [rewrite length_fmap; by apply emitted_names_length|].
    eexists _, _. cbn. unfold front. rewrite <- app_assoc. reflexivity.
Qed.

(** The list up to the partition descriptor: its length ... *)
Lemma front_length b order squashfile size fs sifarch :
  length (front b order squashfile size fs sifarch) =
  S (S (length (emitted_names b order))).
Proof. unfold front. cbn. rewrite length_app, length_fmap. cbn. lia. Qed.

(** ... and its last element. *)
Lemma front_partition b order squashfile size fs sifarch tail :
  (front b order squashfile size fs sifarch ++ tail) !! S (length (emitted_names b order)) =
  Some (part_descr squashfile size fs sifarch).
Proof.
  unfold front. rewrite app_comm_cons, <- app_assoc.
  apply list_lookup_middle. cbn. by rewrite length_fmap.
Qed.

(** The test of line 137 is [data != nil]: without any assumption on the
    wrapper, a key blob is present exactly when encryption options were
    passed and the wrapper answered a non-nil slice. *)
Lemma key_blob_iff_non_nil path b squashfile encOpts arch w fs cinfo :
  handed (createSIF path b squashfile encOpts arch) w fs cinfo →
  of_type DataCryptoMessage cinfo ≠ [] ↔
  ∃ opts data,
    encOpts = Some opts ∧ w_EncryptKey w (keyInfo opts) (plaintext opts) = Ok (Some data).
Proof.
  intros (id & size & data & _ & _ & _ & _ & _ & Hkey & ->)%createSIF_handed.
  rewrite of_type_built. repeat (case_decide; try done). cbn [app].
  split.
  - intros Hne. destruct Hkey as [|opts [d|] Hk Hm]; [done| |done]. eauto.
  - intros (opts & d & -> & Hd).
    inversion Hkey as [|? ? Hk Hm]; subst. rewrite Hd in Hk. by injection Hk as <-.
Qed.

(** C3.  In the list handed to the writer there is exactly one partition
    descriptor; its file-system tag is [FsEncryptedSquashfs] exactly when
    encryption options were passed and [FsSquash] otherwise.  For a key
    wrapper that answers nil or a non-empty block, a key-blob descriptor is
    present exactly when encryption options were passed and the wrapper
    produced non-empty data; it is then the only one, carries that data,
    and its link is the position of the partition descriptor, counted from
    one as SIF descriptor identifiers are (zero is [DescrUnusedLink]) and
    converted to [uint32]. *)
Theorem key_blob_iff_wrapped path b squashfile encOpts arch w fs cinfo :
  wrap_answer_ok w encOpts →
  handed (createSIF path b squashfile encOpts arch) w fs cinfo →
  ∃ i part tag sifarch,
    InputDescr cinfo !! i = Some part ∧
    of_type DataPartition cinfo = [part] ∧
    Extra part = PartExtra tag PartPrimSys sifarch ∧
    (tag = FsEncryptedSquashfs ↔ is_Some encOpts) ∧
    (tag = FsSquash ↔ encOpts = None) ∧
    (of_type DataCryptoMessage cinfo ≠ [] ↔
     ∃ opts data,
       encOpts = Some opts ∧
       w_EncryptKey w (keyInfo opts) (plaintext opts) = Ok (Some data) ∧ data ≠ []) ∧
    (∀ key, key ∈ of_type DataCryptoMessage cinfo →
       of_type DataCryptoMessage cinfo = [key] ∧
       Link key = uint32 (Z.of_nat i + 1) ∧
       (len (InputDescr cinfo) < 2 ^ 32 → Link key = Z.of_nat i + 1)%Z ∧
       ∃ opts, encOpts = Some opts ∧
         w_EncryptKey w (keyInfo opts) (plaintext opts) = Ok (Some (Data key))).
Proof.
  intros Hwrap (id & size & data & _ & _ & _ & _ & _ & Hkey & ->)%createSIF_handed.
  exists (S (length (emitted_names b (w_range w)))),
    (part_descr squashfile size (fstype_of encOpts) (w_GetSIFArch w arch)),
    (fstype_of encOpts), (w_GetSIFArch w arch).
  split; [apply front_partition|].
  rewrite !of_type_built. repeat (case_decide; try done). cbn [app].
  split; [done|]. split; [done|].
  split; [destruct encOpts; cbn; split; (done || by intros [])|].
  split; [by destruct encOpts|].
  assert (len (front b (w_range w) squashfile size (fstype_of encOpts)
                 (w_GetSIFArch w arch)) =
          Z.of_nat (S (length (emitted_names b (w_range w)))) + 1)%Z as Hlen.
  { unfold len. rewrite front_length. lia. }
  rewrite Hlen. split.
  - split.
    + intros Hne. destruct Hkey as [|opts d Hk Hm]; [done|].
      destruct d as [d|]; [|done].
      exists opts, d. do 2 (split; [done|]).
      intros ->. by eapply Hwrap.
    + intros (opts & d & -> & Hd & Hne).
      inversion Hkey as [|? ? Hk Hm]; subst.
      rewrite Hd in Hk. by injection Hk as <-.
  - intros key Hin. destruct data as [d|]; cbn in Hin; [|by apply elem_of_nil in Hin].
    apply list_elem_of_singleton in Hin as ->. cbn [key_part Link Data key_descr].
    split; [done|]. split; [done|]. split.
    + intros Hfit. unfold uint32. apply Z.mod_small.
      cbn [InputDescr] in Hfit. unfold len in Hfit.
      rewrite length_app, front_length in Hfit. cbn in Hfit. lia.
    + inversion Hkey as [|opts ? Hk Hm]; subst. eauto.
Qed.

(** ** The commit *)

(** C4, as amended.  Once the container has been created and finalized:
    when [changeOwner] decides against a change (which includes every case
    in which it logs a warning), [createSIF] returns no error; when it
    decides for a change and [os.Chown] fails, [createSIF] returns the error
    "while changing image ownership"; in all cases the container stays at
    the destination. *)
Theorem ownership_failures path b squashfile encOpts arch w fs cinfo :
  handed (createSIF path b squashfile encOpts arch) w fs cinfo →
  w_create w = None → w_unload w = None →
  let out := run (createSIF path b squashfile encOpts arch) w fs in
  ∃ uid gid ok warnings,
    (∀ st, changeOwner w st = (Ok (uid, gid, ok), logged st warnings)) ∧
    (ok = false → out.1 = Ok ()) ∧
    (ok = true → w_chown w = None → out.1 = Ok ()) ∧
    (ok = true → ∀ e, w_chown w = Some e →
       out.1 = Err (Errorf "while changing image ownership: %s" [] e)) ∧
    ∃ f, st_fs out.2 !! path = Some f ∧ f_content f = FSIF cinfo.
Proof.
  intros [Hpath (r & fs' & tail & Hcommit & ->)]%createSIF_reached Hcreate Hunload. cbn.
  pose proof (commit_stage_artifact _ _ _ _ _ _ _ _ Hcommit Hpath Hcreate) as Hart.
  destruct Hcommit as [| |uid gid ws ?? Hown|uid gid ws e ?? Hown Hch|uid gid ws ?? Hown Hch];
    try congruence.
  - exists uid, gid, false, ws. repeat split; try done.
  - exists uid, gid, true, ws. repeat split; try done; try congruence.
  - exists uid, gid, true, ws. repeat split; try done; congruence.
Qed.

(** C5.  In every run of [createSIF], a removal concerns the destination
    path and is immediately followed by the call of the container writer;
    when a stage before that fails (identifier generation, opening or
    stating the partition file, its extra data, key wrapping) the run
    returns an error, removes nothing and leaves the file system as it was;
    and a run that returns no error, on whatever an earlier run for the
    same path has left, leaves at the path the container made of exactly
    what this run handed to the writer. *)
Theorem destination_removed_last path b squashfile encOpts arch w fs :
  let out := run (createSIF path b squashfile encOpts arch) w fs in
  (∀ i p, st_trace out.2 !! i = Some (EvRemoveAll p) →
          p = path ∧ ∃ cinfo, st_trace out.2 !! S i = Some (EvCreateContainer cinfo)) ∧
  (fails_early w fs squashfile encOpts arch →
     is_Ok out.1 = false ∧ st_fs out.2 = fs ∧ ∀ p, EvRemoveAll p ∉ st_trace out.2) ∧
  (∀ b0 squashfile0 encOpts0 arch0 w0 fs0,
     fs = st_fs (run (createSIF path b0 squashfile0 encOpts0 arch0) w0 fs0).2 →
     out.1 = Ok () →
     ∃ cinfo f,
       handed (createSIF path b squashfile encOpts arch) w fs cinfo ∧
       st_fs out.2 !! path = Some f ∧ f_content f = FSIF cinfo).
Proof.
  intros out.
  destruct (createSIF_cases path b squashfile encOpts arch w fs)
    as [(e & evs & Heq & Hevs & Hwhy)|(cinfo & r & fs' & tail & Hpath & Hcommit & Heq)].
  - subst out. rewrite Heq. cbn [fst snd st_trace st_fs].
    split; [|split].
    + intros i p Hi. apply list_elem_of_lookup_2 in Hi.
      destruct Hevs as [->| ->]; revert Hi;
        rewrite ?elem_of_cons, ?elem_of_nil; intuition discriminate.
    + intros _. do 2 (split; [done|]). intros p.
      destruct Hevs as [->| ->]; rewrite ?elem_of_cons, ?elem_of_nil; intuition discriminate.
    + intros. done.
  - assert (handed (createSIF path b squashfile encOpts arch) w fs cinfo) as Hin.
    { unfold handed. rewrite Heq. cbn. rewrite !elem_of_cons. auto. }
    subst out. rewrite Heq. cbn [fst snd st_trace st_fs].
    split; [|split].
    + intros i p Hi. destruct i as [|[|[|i]]]; cbn in Hi; try discriminate Hi.
      * injection Hi as <-. eauto.
      * exfalso. apply list_elem_of_lookup_2 in Hi.
        apply elem_of_app in Hi as [Hi|Hi].
        -- apply commit_stage_events in Hcommit. rewrite Forall_forall in Hcommit.
           apply Hcommit in Hi. destruct Hi as [[]|[?|(?&?&?&?&?)]]; done.
        -- apply list_elem_of_singleton in Hi. done.
    + intros Hwhy. exfalso. by eapply fails_early_not_handed.
    + intros _ _ _ _ _ _ _ ->. exists cinfo.
      pose proof (commit_stage_returns _ _ _ _ _ _ _ Hcommit) as Hcreate.
      destruct (commit_stage_artifact _ _ _ _ _ _ _ _ Hcommit Hpath Hcreate) as (f & ? & ?).
      eauto.
Qed.

(** ** Two runs on the same input *)

(** Two enumerations of the same mapping are permutations of each other. *)
Lemma range_ok_perm w1 w2 b : range_ok w1 b → range_ok w2 b → w_range w1 ≡ₚ w_range w2.
Proof.
  intros [Hnd1 Hdom1] [Hnd2 Hdom2]. apply NoDup_Permutation; [done..|].
  intros name. rewrite <- !(elem_of_list_to_set (C:=gset string)). by rewrite Hdom1, Hdom2.
Qed.

(** C6, as amended.  Two runs on the same bundle, partition file and
    encryption options, in worlds whose collaborators answer alike, hand
    the writer the same path, format tags and descriptor list, whatever
    identifiers are generated and whatever order the runtime enumerates the
    metadata in; the identifier of each container is the one generated in
    its run. *)
Theorem descriptors_reproducible path b squashfile encOpts arch w1 w2 fs1 fs2 c1 c2 :
  range_ok w1 b → range_ok w2 b →
  same_answers w1 w2 encOpts arch →
  handed (createSIF path b squashfile encOpts arch) w1 fs1 c1 →
  handed (createSIF path b squashfile encOpts arch) w2 fs2 c2 →
  InputDescr c1 = InputDescr c2 ∧
  Pathname c1 = Pathname c2 ∧ Launchstr c1 = Launchstr c2 ∧
  Sifversion c1 = Sifversion c2 ∧
  w_uuid w1 = Ok (ID c1) ∧ w_uuid w2 = Ok (ID c2).
Proof.
  intros Hr1 Hr2 (Hstat & Harch & Hwrap).
  intros (id1 & size1 & data1 & Hid1 & _ & _ & Hstat1 & _ & Hkey1 & ->)%createSIF_handed.
  intros (id2 & size2 & data2 & Hid2 & _ & _ & Hstat2 & _ & Hkey2 & ->)%createSIF_handed.
  cbn. repeat split; try done.
  assert (size2 = size1) as -> by congruence.
  assert (data2 = data1) as ->.
  { inversion Hkey1 as [|opts ? Hk1 ?]; inversion Hkey2 as [|? ? Hk2 ?]; subst; try done.
    simplify_eq. rewrite (Hwrap opts eq_refl) in Hk1. congruence. }
  unfold front, emitted_names.
  rewrite (sort_Strings_unique (w_range w1) (w_range w2)) by by eapply range_ok_perm.
  by rewrite Harch.
Qed.

(** ** The ownership finalizer *)

(** [createSIF] changes the owner with the answer of [changeOwner], and
    only when that answer says so. *)
Lemma createSIF_chown path b squashfile encOpts arch w fs p u g uid gid ok warnings :
  (∀ st, changeOwner w st = (Ok (uid, gid, ok), logged st warnings)) →
  EvChown p u g ∈ st_trace (run (createSIF path b squashfile encOpts arch) w fs).2 →
  ok = true ∧ p = path ∧ u = uid ∧ g = gid.
Proof.
  intros Hown.
  destruct (createSIF_cases path b squashfile encOpts arch w fs)
    as [(e & evs & -> & Hevs & Hwhy)|(cinfo & r & fs' & tail & Hpath & Hcommit & ->)];
    cbn [snd st_trace app].
  - destruct Hevs as [->| ->]; rewrite ?elem_of_cons, ?elem_of_nil; intuition discriminate.
  - rewrite !elem_of_cons, elem_of_app, list_elem_of_singleton.
    intros [Hin|[Hin|[Hin|[Hin|Hin]]]]; try discriminate Hin.
    apply commit_stage_events in Hcommit. rewrite Forall_forall in Hcommit.
    apply Hcommit in Hin as [[]|[Hin|(uid' & gid' & ws & Hin & Hown')]];
      [discriminate Hin|].
    injection Hin as -> -> ->.
    specialize (Hown' (mkState ∅ [])). rewrite (Hown (mkState ∅ [])) in Hown'.
    by simplify_eq.
Qed.

(** C7.  [changeOwner] returns in every world, without error, and logs at
    most warnings.  It answers "no change" silently when the recorded
    command does not match the program name, and when it matches but there
    is no recorded user or the process is not the superuser; when these
    checks pass but SUDO_UID or SUDO_GID does not parse as an integer it
    answers "no change" with one warning; it answers "change" exactly when
    all checks pass, with the parsed ids.  [createSIF] calls [os.Chown]
    only on that answer, on the destination path and with those ids. *)
Theorem ownership_finalizer (w : World) :
  ∃ uid gid ok warnings,
    (∀ st, changeOwner w st = (Ok (uid, gid, ok), logged st warnings)) ∧
    Forall is_warning warnings ∧
    (MatchString "singularity" (getenv w "SUDO_COMMAND") = false →
       ok = false ∧ warnings = []) ∧
    (getenv w "SUDO_USER" = "" ∨ w_uid w ≠ 0%Z → ok = false ∧ warnings = []) ∧
    (MatchString "singularity" (getenv w "SUDO_COMMAND") = true →
     getenv w "SUDO_USER" ≠ "" → w_uid w = 0%Z →
     is_Ok (strconv_Atoi (getenv w "SUDO_UID")) = false ∨
     is_Ok (strconv_Atoi (getenv w "SUDO_GID")) = false →
       ok = false ∧ ∃ warning, warnings = [warning]) ∧
    (ok = true ↔
       MatchString "singularity" (getenv w "SUDO_COMMAND") = true ∧
       getenv w "SUDO_USER" ≠ "" ∧ w_uid w = 0%Z ∧
       strconv_Atoi (getenv w "SUDO_UID") = Ok uid ∧
       strconv_Atoi (getenv w "SUDO_GID") = Ok gid) ∧
    (∀ path b squashfile encOpts arch fs p u g,
       EvChown p u g ∈ st_trace (run (createSIF path b squashfile encOpts arch) w fs).2 →
       ok = true ∧ p = path ∧ u = uid ∧ g = gid).
Proof.
  destruct (changeOwner_run w) as (uid & gid & ok & ws & Hown & Hws & H1 & H2 & H3 & H4 & _).
  exists uid, gid, ok, ws. do 6 (split; [done|]).
  intros. by eapply createSIF_chown.
Qed.

(** C10.  The program-name check is an unanchored search: it passes for
    every recorded command that has "singularity" anywhere in it, and the
    answer of [changeOwner] is then decided by the remaining checks
    alone. *)
Theorem program_name_check_unanchored (w : World) (pre post : string) :
  getenv w "SUDO_COMMAND" = pre +:+ "singularity" +:+ post →
  MatchString "singularity" (getenv w "SUDO_COMMAND") = true ∧
  ∃ uid gid ok warnings,
    (∀ st, changeOwner w st = (Ok (uid, gid, ok), logged st warnings)) ∧
    (ok = true ↔
       getenv w "SUDO_USER" ≠ "" ∧ w_uid w = 0%Z ∧
       strconv_Atoi (getenv w "SUDO_UID") = Ok uid ∧
       strconv_Atoi (getenv w "SUDO_GID") = Ok gid).
Proof.
  intros Hcmd.
  assert (MatchString "singularity" (getenv w "SUDO_COMMAND") = true) as Hm.
  { apply MatchString_iff. eauto. }
  split; [done|].
  destruct (changeOwner_run w) as (uid & gid & ok & ws & Hown & _ & _ & _ & _ & H4 & _).
  exists uid, gid, ok, ws. split; [done|]. rewrite H4. intuition.
Qed.

(** ** The flags of the squashfs call *)

Section flags.

(** The flag list, by cases on the user id and the settings. *)
Lemma mksquashfs_flags_shape (a : SIFAssembler) (getuid : Z) :
  ∃ rest,
    is_option_pairs rest ∧
    mksquashfs_flags a getuid =
      "-noappend" :: (if decide (getuid = 0%Z) then [] else ["-all-root"]) ++ rest.
Proof.
  exists ((if GzipFlag a then ["-comp"; "gzip"] else []) ++
          (if bool_decide (MksquashfsMem a ≠ "") then ["-mem"; MksquashfsMem a] else []) ++
          (if bool_decide (MksquashfsProcs a ≠ 0%N)
           then ["-processors"; pretty (MksquashfsProcs a)] else [])).
  split.
  - exists ((if GzipFlag a then [("-comp", "gzip")] else []) ++
            (if bool_decide (MksquashfsMem a ≠ "") then [("-mem", MksquashfsMem a)] else []) ++
            (if bool_decide (MksquashfsProcs a ≠ 0%N)
             then [("-processors", pretty (MksquashfsProcs a))] else [])).
    split.
    + destruct (GzipFlag a); repeat case_bool_decide; reflexivity.
    + destruct (GzipFlag a); repeat case_bool_decide; cbn;
        repeat constructor; set_solver.
  - unfold mksquashfs_flags.
    destruct (decide (getuid = 0%Z)) as [->|Hne].
    + rewrite (bool_decide_eq_false_2 (0%Z ≠ 0%Z)) by (intros H; by apply H).
      destruct (GzipFlag a); repeat case_bool_decide; done.
    + rewrite (bool_decide_eq_true_2 (getuid ≠ 0%Z)) by done.
      destruct (GzipFlag a); repeat case_bool_decide; done.
Qed.

End flags.

(** ** [Assemble] *)

(** [createSIF] only appends to the trace, and only events of its own. *)
Lemma createSIF_events path b squashfile encOpts arch w st :
  ∃ evs,
    st_trace (createSIF path b squashfile encOpts arch w st).2 = st_trace st ++ evs ∧
    Forall createSIF_event evs.
Proof.
  pose proof (createSIF_run path b squashfile encOpts arch w st) as Hrun.
  remember (createSIF path b squashfile encOpts arch w st) as out eqn:Hout. clear Hout.
  destruct Hrun as [e evs Hevs Hwhy|id size data r fs' tail _ _ _ _ _ _ ds c Hcommit]; cbn.
  - exists evs. split; [done|]. destruct Hevs as [->| ->]; by repeat constructor.
  - eexists. split; [done|]. repeat (apply Forall_cons; split; [done|]).
    apply Forall_app. split; [|by repeat constructor].
    eapply Forall_impl; [by eapply commit_stage_events|]. cbn.
    intros e [He|[->|(?&?&?&->&_)]]; [|done..]. by destruct e as [[]| | | | | | | | | |].
Qed.

(** The resolver in closed form: it cannot fail. *)
Lemma resolve_arch_run (rootfs : string) (w : World) (st : State) :
  resolve_arch rootfs w st =
    (Ok (if decide (w_ArchFromContainer w rootfs = "")
         then w_GOARCH w else w_ArchFromContainer w rootfs),
     logged st (arch_events w rootfs)).
Proof.
  unfold resolve_arch, arch_events, logged. unfold_prims. cbn.
  destruct (decide (w_ArchFromContainer w rootfs = "")) as [E|E].
  - rewrite bool_decide_eq_true_2 by done. cbn. by rewrite <- app_assoc.
  - rewrite bool_decide_eq_false_2 by done. cbn. done.
Qed.

Arguments createSIF : simpl never.
Arguments resolve_arch : simpl never.

Local Ltac norm_trace :=
  repeat first [rewrite <- app_assoc | progress cbn [app]].

Local Ltac createSIF_tail :=
  match goal with
  | |- context [createSIF ?p ?b ?sq ?enc ?arch ?w ?st0] =>
      destruct (createSIF_events p b sq enc arch w st0) as (evs & Htr & Hev);
      destruct (createSIF p b sq enc arch w st0) as [[[]|?] [fs' tr']];
      cbn in Htr |- *; subst tr'
  end.

(** The trace of [Assemble]: either no temporary file could be made, or
    the resolver runs and the squashfs call follows, with the flags of
    [mksquashfs_flags]. *)
Lemma Assemble_run (a : SIFAssembler) (b : Bundle) (path : string) (w : World)
    (fs : gmap string File) :
  let out := run (Assemble a b path) w fs in
  (is_Ok out.1 = false ∧ st_trace out.2 = [EvLog Info "Creating SIF file..." []] ∧
   (is_Ok (w_tempfile w) = false ∨ ∃ name, w_tempfile w = Ok name ∧ is_Some (fs !! name))) ∨
  (∃ name tail,
     w_tempfile w = Ok name ∧ fs !! name = None ∧
     st_trace out.2 =
       EvLog Info "Creating SIF file..." [] :: EvTempFile name :: EvClose name ::
       arch_events w (RootfsPath b) ++
       EvSquashfsCreate (MksquashfsPath a) [RootfsPath b] name
         (mksquashfs_flags a (w_uid w)) :: tail ∧
     Forall late_event tail).
Proof.
  unfold run, Assemble. unfold_prims. cbn.
  destruct (w_tempfile w) as [name|e] eqn:Htmp; cbn; [|left; auto].
  destruct (fs !! name) as [f|] eqn:Hname; cbn; [left; eauto 10|].
  right. exists name. rewrite resolve_arch_run. unfold logged. cbn.
  destruct (w_mksquashfs w [RootfsPath b] (mksquashfs_flags a (w_uid w))) as [data|e]; cbn.
  2: { eexists. split; [done|]. split; [done|]. split.
       - norm_trace. reflexivity.
       - by repeat constructor. }
  destruct (Opts_EncryptionKeyInfo b) as [key|]; cbn.
  - destruct (w_NewPlaintextKey w key) as [plain|e]; cbn.
    2: { eexists. split; [done|]. split; [done|]. split.
         - norm_trace. reflexivity.
         - by repeat constructor. }
    destruct (w_EncryptFilesystem w name plain) as [[loop encrypted]|e]; cbn.
    2: { eexists. split; [done|]. split; [done|]. split.
         - norm_trace. reflexivity.
         - by repeat constructor. }
    createSIF_tail.
    all: eexists; split; [done|]; split; [done|]; split;
      [norm_trace; reflexivity|].
    all: repeat first [apply Forall_cons; split; [done|] | apply Forall_app; split];
      try (by repeat constructor);
      eapply Forall_impl; [exact Hev|]; by intros [[]| | | | | | | | | |].
  - createSIF_tail.
    all: eexists; split; [done|]; split; [done|]; split;
      [norm_trace; reflexivity|].
    all: repeat first [apply Forall_cons; split; [done|] | apply Forall_app; split];
      try (by repeat constructor);
      eapply Forall_impl; [exact Hev|]; by intros [[]| | | | | | | | | |].
Qed.

(** The first element of a list of options is no all-root flag. *)
Lemma option_pairs_head (rest : list string) :
  is_option_pairs rest → rest !! 0 ≠ Some "-all-root".
Proof.
  intros (pairs & -> & Hopts). destruct pairs as [|[o v] pairs]; [done|].
  apply Forall_cons in Hopts as [Ho _]. cbn. intros [= ->].
  revert Ho. rewrite !elem_of_cons, elem_of_nil. intuition discriminate.
Qed.

(** C8.  The flag list of the squashfs call is "-noappend", followed by
    "-all-root" exactly when the user id of the process is not zero,
    followed by options with their values ("-comp", "-mem",
    "-processors"); and this list is what [Assemble] passes to the
    compressor. *)
Theorem all_root_flag (a : SIFAssembler) (b : Bundle) (path : string) (w : World)
    (fs : gmap string File) :
  (∃ rest,
     is_option_pairs rest ∧
     mksquashfs_flags a (w_uid w) =
       "-noappend" :: (if decide (w_uid w = 0%Z) then [] else ["-all-root"]) ++ rest) ∧
  (mksquashfs_flags a (w_uid w) !! 1 = Some "-all-root" ↔ w_uid w ≠ 0%Z) ∧
  (∀ mksquashfs files dest flags,
     EvSquashfsCreate mksquashfs files dest flags
       ∈ st_trace (run (Assemble a b path) w fs).2 →
     flags = mksquashfs_flags a (w_uid w)).
Proof.
  destruct (mksquashfs_flags_shape a (w_uid w)) as (rest & Hrest & Hflags).
  split; [eauto|]. split.
  - rewrite Hflags. destruct (decide (w_uid w = 0%Z)) as [Hz|Hz]; cbn.
    + split; [|done]. intros Hhead. by apply option_pairs_head in Hrest.
    + done.
  - intros mk files dest flags.
    destruct (Assemble_run a b path w fs)
      as [(_ & -> & _)|(name & tail & _ & _ & -> & Htail)].
    + rewrite list_elem_of_singleton. intros [=].
    + rewrite !elem_of_cons, elem_of_app, elem_of_cons.
      intros [Hin|[Hin|[Hin|[Hin|[Hin|Hin]]]]]; try discriminate Hin.
      * exfalso. unfold arch_events in Hin. case_decide; cbn [app] in Hin;
          revert Hin; rewrite ?elem_of_cons, ?elem_of_nil; intuition discriminate.
      * by injection Hin as _ _ _ ->.
      * exfalso. rewrite Forall_forall in Htail. by apply Htail in Hin.
Qed.

(** C9.  Resolving the architecture returns in every world: when
    detection finds nothing, the result is the architecture of the build
    host and the fallback is reported in the log; otherwise the result is
    the detected tag and nothing is reported.  The result depends on the
    world only, so repeated calls agree.  In [Assemble] the step cannot
    fail: whenever the temporary file could be made, the report (if any)
    is in the trace and the squashfs call follows. *)
Theorem architecture_fallback (rootfs : string) (w : World) :
  let detected := w_ArchFromContainer w rootfs in
  let report := EvLog Info "Architecture not recognized, use native" [] in
  (∀ st, ∃ arch logs,
     resolve_arch rootfs w st = (Ok arch, logged st logs) ∧
     (detected = "" → arch = w_GOARCH w ∧ report ∈ logs) ∧
     (detected ≠ "" → arch = detected ∧ report ∉ logs)) ∧
  (∀ st1 st2, (resolve_arch rootfs w st1).1 = (resolve_arch rootfs w st2).1) ∧
  (∀ a b path fs name,
     RootfsPath b = rootfs → w_tempfile w = Ok name → fs !! name = None →
     let trace := st_trace (run (Assemble a b path) w fs).2 in
     (detected = "" → report ∈ trace) ∧
     ∃ flags, EvSquashfsCreate (MksquashfsPath a) [rootfs] name flags ∈ trace).
Proof.
  intros detected report. split; [|split].
  - intros st. eexists _, _. split; [apply resolve_arch_run|].
    unfold arch_events. fold detected. subst report.
    destruct (decide (detected = "")) as [E|E]; cbn [app]; split; try done; intros _.
    + split; [done|]. rewrite !elem_of_cons. auto.
    + split; [done|]. rewrite !elem_of_cons, elem_of_nil. intuition discriminate.
  - intros st1 st2. by rewrite !resolve_arch_run.
  - intros a b path fs name <- Htmp Hname trace.
    destruct (Assemble_run a b path w fs)
      as [(_ & _ & [Hw|(n & Hn & Hsome)])|(n & tail & Hn & _ & Htr & _)].
    + by rewrite Htmp in Hw.
    + rewrite Htmp in Hn. injection Hn as <-. rewrite Hname in Hsome. by destruct Hsome.
    + rewrite Htmp in Hn. injection Hn as <-. subst trace. rewrite Htr. split.
      * intros E. unfold arch_events. fold detected. rewrite decide_True by done.
        subst report. cbn [app]. rewrite !elem_of_cons. auto.
      * eexists. rewrite !elem_of_cons, elem_of_app, elem_of_cons. eauto 10.
Qed.

(** ** Concrete runs *)

Local Ltac third_event :=
  unfold handed; vm_compute; do 2 apply list_elem_of_further; apply list_elem_of_here.

(** A build without a recipe: the definition descriptor is there, empty. *)
Lemma definition_descriptor_first_witness :
  ∃ cinfo d rest,
    handed (createSIF "/out.sif" (demo.bundle [] None) "/build/tmp/squashfs-1" None "amd64")
      demo.user_world demo.files cinfo ∧
    InputDescr cinfo = d :: rest ∧ Datatype d = DataDeffile ∧ Data d = [] ∧ Size d = 0%Z.
Proof.
  exists (demo.image (demo.bundle [] None) demo.id1 None).
  assert (handed (createSIF "/out.sif" (demo.bundle [] None) "/build/tmp/squashfs-1" None "amd64")
            demo.user_world demo.files (demo.image (demo.bundle [] None) demo.id1 None)) as Hin
    by third_event.
  destruct (proj1 (definition_descriptor_first "/out.sif" (demo.bundle [] None)
                     "/build/tmp/squashfs-1" None "amd64" demo.user_world demo.files)
              _ Hin) as (d & rest & Hd & Ht & _ & _ & Hempty).
  destruct (Hempty eq_refl) as [Hdata Hsize].
  exists d, rest. auto.
Defined.

(** The example of the specification: labels, runscript (empty) and env,
    enumerated in another order, give descriptors for env and labels. *)
Lemma metadata_descriptors_sorted_witness :
  range_ok demo.user_world (demo.bundle demo.recipe None) ∧
  ∃ cinfo,
    handed (createSIF "/out.sif" (demo.bundle demo.recipe None) "/build/tmp/squashfs-1"
              None "amd64") demo.user_world demo.files cinfo ∧
    Fname <$> of_type DataGenericJSON cinfo = ["env"; "labels"] ∧
    StronglySorted string_lt (Fname <$> of_type DataGenericJSON cinfo).
Proof.
  assert (range_ok demo.user_world (demo.bundle demo.recipe None)) as Hrange.
  { split; [apply (bool_decide_unpack _); by vm_compute|by vm_compute]. }
  split; [exact Hrange|].
  exists (demo.image (demo.bundle demo.recipe None) demo.id1 None).
  assert (handed (createSIF "/out.sif" (demo.bundle demo.recipe None) "/build/tmp/squashfs-1"
                    None "amd64") demo.user_world demo.files
            (demo.image (demo.bundle demo.recipe None) demo.id1 None)) as Hin
    by third_event.
  split; [exact Hin|]. split; [by vm_compute|].
  exact (proj1 (metadata_descriptors_sorted _ _ _ _ _ _ _ _ Hrange Hin)).
Defined.

(** An encrypted build with a PEM key: one key blob, linked to the
    partition descriptor. *)
Lemma key_blob_iff_wrapped_witness :
  wrap_answer_ok demo.user_world (Some demo.opts) ∧
  ∃ cinfo i part,
    handed (createSIF "/out.sif" (demo.bundle demo.recipe (Some demo.pem_key))
              "/build/tmp/squashfs-1" (Some demo.opts) "amd64")
      demo.user_world demo.files cinfo ∧
    InputDescr cinfo !! i = Some part ∧
    of_type DataPartition cinfo = [part] ∧
    ∀ key, key ∈ of_type DataCryptoMessage cinfo → Link key = (Z.of_nat i + 1)%Z.
Proof.
  assert (wrap_answer_ok demo.user_world (Some demo.opts)) as Hwrap.
  { intros opts [= <-]. vm_compute. discriminate. }
  split; [exact Hwrap|].
  exists (demo.image (demo.bundle demo.recipe (Some demo.pem_key)) demo.id1 (Some demo.opts)).
  assert (handed (createSIF "/out.sif" (demo.bundle demo.recipe (Some demo.pem_key))
                    "/build/tmp/squashfs-1" (Some demo.opts) "amd64")
            demo.user_world demo.files
            (demo.image (demo.bundle demo.recipe (Some demo.pem_key)) demo.id1
               (Some demo.opts))) as Hin
    by third_event.
  destruct (key_blob_iff_wrapped _ _ _ _ _ _ _ _ Hwrap Hin)
    as (i & part & tag & sifarch & Hi & Hpart & _ & _ & _ & _ & Hkey).
  exists i, part. do 3 (split; [assumption|]).
  intros key Hk. destruct (Hkey key Hk) as (_ & _ & Hlink & _).
  apply Hlink. by vm_compute.
Defined.

(** C4 fails on the code: in this run the container is created and
    finalized, [os.Chown] then fails, and [createSIF] returns the error. *)
Lemma chown_failure_returns_error :
  handed (createSIF "/out.sif" (demo.bundle demo.recipe None) "/build/tmp/squashfs-1"
            None "amd64")
    (demo.sudo_world (Some demo.not_permitted)) demo.files
    (demo.image (demo.bundle demo.recipe None) demo.id1 None) ∧
  w_create (demo.sudo_world (Some demo.not_permitted)) = None ∧
  w_unload (demo.sudo_world (Some demo.not_permitted)) = None ∧
  (run (createSIF "/out.sif" (demo.bundle demo.recipe None) "/build/tmp/squashfs-1"
          None "amd64")
     (demo.sudo_world (Some demo.not_permitted)) demo.files).1 =
    Err (Errorf "while changing image ownership: %s" [] demo.not_permitted).
Proof. split; [third_event|]. by vm_compute. Qed.

(** The same run: the container is at the destination all the same. *)
Lemma ownership_failures_witness :
  ∃ cinfo f,
    handed (createSIF "/out.sif" (demo.bundle demo.recipe None) "/build/tmp/squashfs-1"
              None "amd64")
      (demo.sudo_world (Some demo.not_permitted)) demo.files cinfo ∧
    st_fs (run (createSIF "/out.sif" (demo.bundle demo.recipe None)
                  "/build/tmp/squashfs-1" None "amd64")
             (demo.sudo_world (Some demo.not_permitted)) demo.files).2 !! "/out.sif" =
      Some f ∧
    f_content f = FSIF cinfo.
Proof.
  exists (demo.image (demo.bundle demo.recipe None) demo.id1 None).
  assert (handed (createSIF "/out.sif" (demo.bundle demo.recipe None) "/build/tmp/squashfs-1"
                    None "amd64")
            (demo.sudo_world (Some demo.not_permitted)) demo.files
            (demo.image (demo.bundle demo.recipe None) demo.id1 None)) as Hin
    by third_event.
  destruct (ownership_failures _ _ _ _ _ _ _ _ Hin eq_refl eq_refl)
    as (uid & gid & ok & warnings & _ & _ & _ & _ & f & Hf & Hcontent).
  exists f. auto.
Defined.

(** Two builds in a row for the same destination: the second container is
    what is left there. *)
Lemma destination_removed_last_witness :
  ∃ cinfo f,
    handed (createSIF "/out.sif" (demo.bundle demo.recipe None) "/build/tmp/squashfs-1"
              None "amd64")
      demo.user_world
      (st_fs (run (createSIF "/out.sif" (demo.bundle [] None) "/build/tmp/squashfs-1"
                     None "amd64") demo.user_world demo.files).2)
      cinfo ∧
    st_fs (run (createSIF "/out.sif" (demo.bundle demo.recipe None)
                  "/build/tmp/squashfs-1" None "amd64")
             demo.user_world
             (st_fs (run (createSIF "/out.sif" (demo.bundle [] None)
                            "/build/tmp/squashfs-1" None "amd64")
                       demo.user_world demo.files).2)).2 !! "/out.sif" = Some f ∧
    f_content f = FSIF cinfo.
Proof.
  apply (proj2 (proj2 (destination_removed_last "/out.sif" (demo.bundle demo.recipe None)
                         "/build/tmp/squashfs-1" None "amd64" demo.user_world _))
           (demo.bundle [] None) "/build/tmp/squashfs-1" None "amd64" demo.user_world
           demo.files eq_refl).
  by vm_compute.
Defined.

(** C6 fails on the code: two runs that differ in the generated identifier
    only both succeed and leave different containers at the destination. *)
Lemma identifier_enters_container :
  (run (createSIF "/out.sif" (demo.bundle demo.recipe None) "/build/tmp/squashfs-1"
          None "amd64")
     (demo.world ∅ 1000 demo.id1 demo.order1 None) demo.files).1 = Ok () ∧
  (run (createSIF "/out.sif" (demo.bundle demo.recipe None) "/build/tmp/squashfs-1"
          None "amd64")
     (demo.world ∅ 1000 demo.id2 demo.order1 None) demo.files).1 = Ok () ∧
  st_fs (run (createSIF "/out.sif" (demo.bundle demo.recipe None) "/build/tmp/squashfs-1"
                None "amd64")
           (demo.world ∅ 1000 demo.id1 demo.order1 None) demo.files).2 !! "/out.sif" ≠
  st_fs (run (createSIF "/out.sif" (demo.bundle demo.recipe None) "/build/tmp/squashfs-1"
                None "amd64")
           (demo.world ∅ 1000 demo.id2 demo.order1 None) demo.files).2 !! "/out.sif".
Proof. do 2 (split; [by vm_compute|]). vm_compute. intros [=]. Qed.

(** Two runs with different identifiers and enumeration orders: the same
    descriptor lists. *)
Lemma descriptors_reproducible_witness :
  InputDescr (demo.image (demo.bundle demo.recipe None) demo.id1 None) =
  InputDescr (demo.image (demo.bundle demo.recipe None) demo.id2 None) ∧
  w_uuid (demo.world ∅ 1000 demo.id1 demo.order1 None) = Ok demo.id1 ∧
  w_uuid (demo.world ∅ 1000 demo.id2 demo.order2 None) = Ok demo.id2.
Proof.
  assert (range_ok (demo.world ∅ 1000 demo.id1 demo.order1 None)
            (demo.bundle demo.recipe None)) as Hr1.
  { split; [apply (bool_decide_unpack _); by vm_compute|by vm_compute]. }
  assert (range_ok (demo.world ∅ 1000 demo.id2 demo.order2 None)
            (demo.bundle demo.recipe None)) as Hr2.
  { split; [apply (bool_decide_unpack _); by vm_compute|by vm_compute]. }
  assert (same_answers (demo.world ∅ 1000 demo.id1 demo.order1 None)
            (demo.world ∅ 1000 demo.id2 demo.order2 None) None "amd64") as Hsame.
  { by repeat split. }
  assert (handed (createSIF "/out.sif" (demo.bundle demo.recipe None) "/build/tmp/squashfs-1"
                    None "amd64")
            (demo.world ∅ 1000 demo.id1 demo.order1 None) demo.files
            (demo.image (demo.bundle demo.recipe None) demo.id1 None)) as Hin1
    by third_event.
  assert (handed (createSIF "/out.sif" (demo.bundle demo.recipe None) "/build/tmp/squashfs-1"
                    None "amd64")
            (demo.world ∅ 1000 demo.id2 demo.order2 None) demo.files
            (demo.image (demo.bundle demo.recipe None) demo.id2 None)) as Hin2
    by third_event.
  destruct (descriptors_reproducible _ _ _ _ _ _ _ _ _ _ _ Hr1 Hr2 Hsame Hin1 Hin2)
    as (Hdescr & _ & _ & _ & Hid1 & Hid2).
  auto.
Defined.

(** A build under sudo with ids 1000: the answer is to change the owner. *)
Lemma ownership_finalizer_witness :
  ∃ warnings,
    (∀ st, changeOwner (demo.sudo_world None) st =
             (Ok (1000%Z, 1000%Z, true), logged st warnings)) ∧
    Forall is_warning warnings.
Proof.
  destruct (ownership_finalizer (demo.sudo_world None))
    as (uid & gid & ok & warnings & Hown & Hwarn & _).
  exists warnings. split; [|exact Hwarn].
  pose proof (Hown (mkState ∅ [])) as E. vm_compute in E.
  injection E as <- <- <- _. exact Hown.
Defined.

Example strconv_Atoi_examples :
  strconv_Atoi "1000" = Ok 1000%Z ∧
  strconv_Atoi "-12" = Ok (-12)%Z ∧
  strconv_Atoi "+7" = Ok 7%Z ∧
  strconv_Atoi "" = Err (ErrNum "Atoi" "" ErrSyntax) ∧
  strconv_Atoi "abc" = Err (ErrNum "Atoi" "abc" ErrSyntax) ∧
  strconv_Atoi "9223372036854775807" = Ok 9223372036854775807%Z ∧
  strconv_Atoi "9223372036854775808" = Err (ErrNum "Atoi" "9223372036854775808" ErrRange).
Proof. by vm_compute. Qed.

(** The example of the specification: with a matching command, superuser
    privilege and ids 1000, the image ends up owned by 1000:1000. *)
Example owner_changed :
  ∃ f,
    st_fs (run (createSIF "/out.sif" (demo.bundle demo.recipe None)
                  "/build/tmp/squashfs-1" None "amd64")
             (demo.sudo_world None) demo.files).2 !! "/out.sif" = Some f ∧
    f_uid f = 1000%Z ∧ f_gid f = 1000%Z.
Proof. eexists. by vm_compute. Qed.

(** The example of the specification: an id that is no number gives a
    warning and no change of owner. *)
Example owner_unparsable_uid :
  changeOwner (demo.world (<["SUDO_UID" := "abc"]> demo.sudo_env) 0 demo.id1 demo.order1 None)
    (mkState ∅ []) =
  (Ok (0%Z, 0%Z, false),
   mkState ∅ [EvLog Warning "Error while calling strconv: %v"
                [ArgError (ErrNum "Atoi" "abc" ErrSyntax)]]).
Proof. by vm_compute. Qed.

(** The flag is there for user 1000 and not for the superuser. *)
Lemma all_root_flag_witness :
  mksquashfs_flags demo.assembler 1000 !! 1 = Some "-all-root" ∧
  mksquashfs_flags demo.assembler 0 !! 1 ≠ Some "-all-root" ∧
  mksquashfs_flags demo.assembler 1000 =
    ["-noappend"; "-all-root"; "-comp"; "gzip"; "-mem"; "1G"; "-processors"; "4"].
Proof.
  split; [|split].
  - apply (proj1 (proj2 (all_root_flag demo.assembler (demo.bundle demo.recipe None)
                           "/out.sif" demo.user_world demo.files))).
    by vm_compute.
  - intros Hflag.
    apply (proj1 (proj1 (proj2 (all_root_flag demo.assembler (demo.bundle demo.recipe None)
                                  "/out.sif" (demo.sudo_world None) demo.files))) Hflag).
    by vm_compute.
  - by vm_compute.
Defined.

(** No architecture detected on an amd64 host. *)
Lemma architecture_fallback_witness :
  ∃ logs,
    resolve_arch "/build/rootfs" demo.user_world (mkState ∅ []) =
      (Ok "amd64", logged (mkState ∅ []) logs) ∧
    EvLog Info "Architecture not recognized, use native" [] ∈ logs.
Proof.
  destruct (proj1 (architecture_fallback "/build/rootfs" demo.user_world) (mkState ∅ []))
    as (arch & logs & Hrun & Hfallback & _).
  destruct (Hfallback eq_refl) as [Harch Hlog].
  exists logs. split; [|exact Hlog].
  rewrite Hrun, Harch. reflexivity.
Defined.

(** A backup command that only names a file with "singularity" in it. *)
Lemma program_name_check_unanchored_witness :
  MatchString "singularity"
    (getenv (demo.world demo.backup_env 0 demo.id1 demo.order1 None) "SUDO_COMMAND") = true ∧
  ∃ warnings,
    ∀ st, changeOwner (demo.world demo.backup_env 0 demo.id1 demo.order1 None) st =
            (Ok (1000%Z, 1000%Z, true), logged st warnings).
Proof.
  destruct (program_name_check_unanchored
              (demo.world demo.backup_env 0 demo.id1 demo.order1 None)
              "/bin/tar czf /backup/" "-cache.tgz /var/cache" eq_refl)
    as (Hmatch & uid & gid & ok & warnings & Hown & _).
  split; [exact Hmatch|]. exists warnings.
  pose proof (Hown (mkState ∅ [])) as E. vm_compute in E.
  injection E as <- <- <- _. exact Hown.
Defined.

(** * Further properties of the assembler *)

(** ** [createSIF]: errors, events and the file system *)

Local Ltac stage_run :=
  unfold run, createSIF; unfold_prims; cbn;
  repeat match goal with
  | H : _ = _ |- _ => rewrite H; cbn
  end;
  try reflexivity.

(** X1.  The error [createSIF] returns is decided by the first stage that
    fails, in the order of the source: identifier generation, opening the
    partition file (a missing file included), its stat, its extra data,
    wrapping the key, the extra data of the key blob, the writer, the
    finalize step.  Each error is wrapped in the message of its stage,
    except the errors of [SetPartExtra] and [SetCryptoMsgExtra], which are
    returned as they are. *)
Theorem createSIF_stage_errors path b squashfile encOpts arch w fs :
  let r := (run (createSIF path b squashfile encOpts arch) w fs).1 in
  (∀ e, w_uuid w = Err e → r = Err (Errorf "sif id generation failed: %v" [] e)) ∧
  (∀ id, w_uuid w = Ok id → fs !! squashfile = None →
     r = Err (Errorf "while opening partition file: %s" []
                (ErrExternal "open" "no such file or directory"))) ∧
  (∀ id f e, w_uuid w = Ok id → fs !! squashfile = Some f → w_open w = Some e →
     r = Err (Errorf "while opening partition file: %s" [] e)) ∧
  (∀ id f e, w_uuid w = Ok id → fs !! squashfile = Some f → w_open w = None →
     w_stat w = Err e →
     r = Err (Errorf "while calling stat on partition file: %s" [] e)) ∧
  (∀ id f size e, w_uuid w = Ok id → fs !! squashfile = Some f → w_open w = None →
     w_stat w = Ok size →
     w_SetPartExtra w (fstype_of encOpts) PartPrimSys (w_GetSIFArch w arch) = Some e →
     r = Err e) ∧
  (∀ id f size opts e, w_uuid w = Ok id → fs !! squashfile = Some f → w_open w = None →
     w_stat w = Ok size →
     w_SetPartExtra w (fstype_of encOpts) PartPrimSys (w_GetSIFArch w arch) = None →
     encOpts = Some opts →
     w_EncryptKey w (keyInfo opts) (plaintext opts) = Err e →
     r = Err (Errorf "while encrypting filesystem key: %s" [] e)) ∧
  (∀ id f size opts data e, w_uuid w = Ok id → fs !! squashfile = Some f →
     w_open w = None → w_stat w = Ok size →
     w_SetPartExtra w (fstype_of encOpts) PartPrimSys (w_GetSIFArch w arch) = None →
     encOpts = Some opts →
     w_EncryptKey w (keyInfo opts) (plaintext opts) = Ok (Some data) →
     w_SetCryptoMsgExtra w FormatPEM MessageRSAOAEP = Some e →
     r = Err e) ∧
  (∀ e, prepared w fs squashfile encOpts arch → w_create w = Some e →
     r = Err (Errorf "while creating container: %s" [] e)) ∧
  (∀ e, prepared w fs squashfile encOpts arch → w_create w = None → w_unload w = Some e →
     r = Err (Errorf "while unloading container: %w" [] e)).
Proof.
  intros r. subst r. repeat split.
  - intros e H. stage_run.
  - intros id H1 H2. stage_run.
  - intros id f e H1 H2 H3. stage_run.
  - intros id f e H1 H2 H3 H4. stage_run.
  - intros id f size e H1 H2 H3 H4 H5. unfold fstype_of in H5. stage_run.
  - intros id f size opts e H1 H2 H3 H4 H5 -> H7. cbn in H5. stage_run.
  - intros id f size opts data e H1 H2 H3 H4 H5 -> H7 H8. cbn in H5. stage_run.
  - intros e [cinfo Hin]%(createSIF_prepared path b) Hcreate.
    apply createSIF_reached in Hin as [_ (r & fs' & tail & Hcommit & ->)]. cbn.
    destruct Hcommit; congruence.
  - intros e [cinfo Hin]%(createSIF_prepared path b) Hcreate Hunload.
    apply createSIF_reached in Hin as [_ (r & fs' & tail & Hcommit & ->)]. cbn.
    destruct Hcommit; congruence.
Qed.

(** Nothing after the call of the writer opens or closes a file. *)
Lemma commit_stage_no_files w path squashfile cinfo fs r fs' tail p :
  commit_stage w path squashfile cinfo fs r fs' tail →
  (EvOpen p ∉ tail) ∧ (EvClose p ∉ tail).
Proof.
  intros Hc%commit_stage_events. rewrite Forall_forall in Hc.
  split; intros Hin%Hc; destruct Hin as [[]|[?|(?&?&?&?&?)]]; done.
Qed.

Local Ltac opened_leaf :=
  cbn; rewrite ?app_nil_r;
  split; [intros; try discriminate; eauto
         |first [reflexivity|intros [?|[?|[? ?]]]; discriminate]].

Local Ltac opened_owner w :=
  let E := fresh "Hown" in
  destruct (changeOwner_run w) as (uid & gid & [] & warnings & E & _);
  rewrite !E; unfold logged; cbn;
  [destruct (w_chown w); cbn; opened_leaf|opened_leaf].

Local Ltac opened_commit w :=
  destruct (w_removeall w); cbn;
  (destruct (w_create w); cbn; [opened_leaf|]);
  (destruct (w_unload w); cbn; [opened_leaf|opened_owner w]).

(** The trace of a run is empty exactly when the partition file was not
    opened. *)
Lemma createSIF_silent path b squashfile encOpts arch w fs :
  st_trace (run (createSIF path b squashfile encOpts arch) w fs).2 = [] ↔
  is_Ok (w_uuid w) = false ∨ fs !! squashfile = None ∨ is_Some (w_open w).
Proof.
  unfold run, createSIF. unfold_prims. cbn.
  destruct (w_uuid w) as [id|e]; cbn; [|opened_leaf].
  destruct (fs !! squashfile) as [f|]; cbn; [|opened_leaf].
  destruct (w_open w) as [e|]; cbn; [opened_leaf|].
  destruct (w_stat w) as [size|e]; cbn; [|opened_leaf].
  destruct (w_SetPartExtra w _ PartPrimSys (w_GetSIFArch w arch)) as [e|]; cbn; [opened_leaf|].
  destruct encOpts as [opts|]; cbn.
  - destruct (w_EncryptKey w (keyInfo opts) (plaintext opts)) as [[data|]|e]; cbn;
      [|opened_commit w|opened_leaf].
    destruct (w_SetCryptoMsgExtra w FormatPEM MessageRSAOAEP) as [e|]; cbn;
      [opened_leaf|opened_commit w].
  - opened_commit w.
Qed.

(** X2.  The deferred [fp.Close()]: a run of [createSIF] logs nothing at
    all exactly when the partition file could not be opened (no
    identifier, no such file, or [os.Open] refused); in every other run,
    failing or not, the first event is the opening of the partition file,
    the last event is its closing, and no file is opened or closed in
    between. *)
Theorem createSIF_closes_partition path b squashfile encOpts arch w fs :
  let trace := st_trace (run (createSIF path b squashfile encOpts arch) w fs).2 in
  (trace = [] ↔ is_Ok (w_uuid w) = false ∨ fs !! squashfile = None ∨ is_Some (w_open w)) ∧
  (trace ≠ [] →
   ∃ mid, trace = EvOpen squashfile :: mid ++ [EvClose squashfile] ∧
          ∀ p, (EvOpen p ∉ mid) ∧ (EvClose p ∉ mid)).
Proof.
  cbn. split; [apply createSIF_silent|].
  destruct (createSIF_cases path b squashfile encOpts arch w fs)
    as [(e & evs & -> & [->| ->] & _)|(cinfo & r & fs' & tail & _ & Hcommit & ->)]; cbn.
  - done.
  - intros _. exists []. split; [done|]. intros p. split; by intros ?%elem_of_nil.
  - intros _. exists (EvRemoveAll path :: EvCreateContainer cinfo :: tail). split; [done|].
    intros p. destruct (commit_stage_no_files _ _ _ _ _ _ _ _ p Hcommit).
    rewrite !elem_of_cons. split; intros [?|[?|?]]; done.
Qed.

(** Looking up a file outside the destination after [os.RemoveAll]. *)
Lemma removed_outside w path fs p :
  within path p = false → removed w path fs !! p = fs !! p.
Proof.
  intros Hp. unfold removed. destruct (w_removeall w); [|done].
  destruct (fs !! p) as [f|] eqn:E.
  - by apply map_lookup_filter_Some.
  - apply map_lookup_filter_None. by left.
Qed.

Lemma within_refl path : within path path = true.
Proof. unfold within. by rewrite bool_decide_eq_true_2. Qed.

(** [createSIF] leaves what is outside the destination tree alone. *)
Lemma createSIF_outside path b squashfile encOpts arch w fs p :
  within path p = false →
  st_fs (run (createSIF path b squashfile encOpts arch) w fs).2 !! p = fs !! p.
Proof.
  intros Hp.
  assert (p ≠ path) as Hne by (intros ->; by rewrite within_refl in Hp).
  destruct (createSIF_cases path b squashfile encOpts arch w fs)
    as [(e & evs & -> & _ & _)|(cinfo & r & fs' & tail & Hpath & Hcommit & ->)]; [done|].
  cbn. destruct Hcommit; rewrite Hpath;
    rewrite ?lookup_alter_ne, ?lookup_insert_ne, ?lookup_delete_ne by done;
    by apply removed_outside.
Qed.

(** X3.  [createSIF] changes the file system at the destination only: a
    file that is neither the destination nor below it is after the run
    what it was before, the partition file included.  A file strictly
    below the destination that is still there after the run is unchanged
    too, and when the writer was reached it is there only because
    [os.RemoveAll], whose error the code drops, did not remove the tree. *)
Theorem createSIF_frame path b squashfile encOpts arch w fs p :
  let out := run (createSIF path b squashfile encOpts arch) w fs in
  (within path p = false → st_fs out.2 !! p = fs !! p) ∧
  (within path p = true → p ≠ path → is_Some (st_fs out.2 !! p) →
     st_fs out.2 !! p = fs !! p ∧
     (prepared w fs squashfile encOpts arch → w_removeall w = false)).
Proof.
  cbn zeta. split; [apply createSIF_outside|].
  intros Hp Hne Hsome.
  destruct (createSIF_cases path b squashfile encOpts arch w fs)
    as [(e & evs & Heq & _ & Hwhy)|(cinfo & r & fs' & tail & Hpath & Hcommit & Heq)];
    rewrite Heq in *; cbn in *.
  - split; [done|]. intros [c Hc]%(createSIF_prepared path b).
    exfalso. by eapply fails_early_not_handed.
  - assert (fs' !! p = removed w path fs !! p) as Hfs.
    { destruct Hcommit; rewrite Hpath;
        by rewrite ?lookup_alter_ne, ?lookup_insert_ne, ?lookup_delete_ne by done. }
    rewrite Hfs in *. unfold removed in *.
    destruct (w_removeall w); [|done].
    destruct Hsome as [f Hf]. apply map_lookup_filter_Some in Hf as [_ Hf].
    cbn in Hf. congruence.
Qed.

(** The answer of [changeOwner] in a world is one answer. *)
Lemma changeOwner_unique w uid gid ok ws uid' gid' ok' ws' :
  (∀ st, changeOwner w st = (Ok (uid, gid, ok), logged st ws)) →
  (∀ st, changeOwner w st = (Ok (uid', gid', ok'), logged st ws')) →
  uid' = uid ∧ gid' = gid ∧ ok' = ok ∧ ws' = ws.
Proof.
  intros H1 H2. specialize (H1 (mkState ∅ [])). rewrite (H2 (mkState ∅ [])) in H1.
  unfold logged in H1. cbn in H1. by simplify_eq.
Qed.

(** X4.  [createSIF] returns nil exactly when no stage before the writer
    fails, the writer and the finalize step succeed, and the ownership
    change, if [changeOwner] asks for one, succeeds. *)
Theorem createSIF_succeeds_iff path b squashfile encOpts arch w fs :
  ∃ uid gid ok warnings,
    (∀ st, changeOwner w st = (Ok (uid, gid, ok), logged st warnings)) ∧
    ((run (createSIF path b squashfile encOpts arch) w fs).1 = Ok () ↔
     prepared w fs squashfile encOpts arch ∧ w_create w = None ∧ w_unload w = None ∧
     (ok = true → w_chown w = None)).
Proof.
  destruct (changeOwner_run w) as (uid & gid & ok & ws & Hown & _).
  exists uid, gid, ok, ws. split; [done|].
  assert (∀ uid' gid' ok' ws',
            (∀ st, changeOwner w st = (Ok (uid', gid', ok'), logged st ws')) → ok' = ok)
    as Hsame.
  { intros ???? H'. by destruct (changeOwner_unique _ _ _ _ _ _ _ _ _ Hown H') as (_&_&?&_). }
  destruct (createSIF_cases path b squashfile encOpts arch w fs)
    as [(e & evs & -> & _ & Hwhy)|(cinfo & r & fs' & tail & Hpath & Hcommit & Heq)].
  - cbn. split; [done|]. intros ([cinfo Hin]%(createSIF_prepared path b) & _).
    exfalso. by eapply fails_early_not_handed.
  - assert (prepared w fs squashfile encOpts arch) as Hprep.
    { apply (createSIF_prepared path b). exists cinfo. unfold handed. rewrite Heq. cbn.
      rewrite !elem_of_cons. auto. }
    rewrite Heq. cbn.
    destruct Hcommit as [| |? ? ? ?? Ho|? ? ? ? ?? Ho ?|? ? ? ?? Ho ?];
      try apply Hsame in Ho as <-; split; try done; try (intros (_ & ? & ? & ?); congruence).
    intros (_ & _ & _ & Hch). specialize (Hch eq_refl). congruence.
Qed.

(** X5.  The container [createSIF] asks for: the destination path, the
    launch string and version of the format, the generated identifier, and
    a descriptor list made of the definition file, the metadata, one
    partition and the key blobs, in this order.  Every descriptor is in
    the default group; only a key blob has a link; only the partition has
    an open file, every other descriptor carries its data with their
    length as size; only partition and key blob have extra data.  The
    partition descriptor is named after the partition file, refers to the
    open file, has the size that [Stat] returned, and is tagged as primary
    system partition of the given file system type and architecture. *)
Theorem container_layout path b squashfile encOpts arch w fs cinfo :
  handed (createSIF path b squashfile encOpts arch) w fs cinfo →
  (Pathname cinfo = path ∧ Launchstr cinfo = HdrLaunch ∧ Sifversion cinfo = HdrVersion ∧
   w_uuid w = Ok (ID cinfo)) ∧
  InputDescr cinfo =
    of_type DataDeffile cinfo ++ of_type DataGenericJSON cinfo ++
    of_type DataPartition cinfo ++ of_type DataCryptoMessage cinfo ∧
  Forall well_formed (InputDescr cinfo) ∧
  ∃ part,
    of_type DataPartition cinfo = [part] ∧
    Fname part = squashfile ∧ Fp part = Some squashfile ∧ w_stat w = Ok (Size part) ∧
    Data part = [] ∧
    Extra part = PartExtra (fstype_of encOpts) PartPrimSys (w_GetSIFArch w arch).
Proof.
  intros (id & size & data & Hid & _ & _ & Hstat & _ & _ & ->)%createSIF_handed.
  rewrite !of_type_built. repeat (case_decide; try done). cbn [app]. rewrite !app_nil_r.
  split; [done|]. split; [|split].
  - cbn [InputDescr]. unfold front. cbn [app]. by rewrite <- app_assoc.
  - cbn [InputDescr]. unfold front. cbn [app]. rewrite <- app_assoc.
    rewrite Forall_cons, !Forall_app, Forall_fmap. split; [|split; [|split]].
    + unfold well_formed, def_descr, binary_Size. cbn. intuition (done || auto).
    + apply Forall_true. intros name.
      unfold well_formed, json_descr, binary_Size. cbn. intuition (done || auto).
    + apply Forall_singleton. unfold well_formed. cbn. intuition (done || auto).
    + destruct data as [d|]; [|constructor]. apply Forall_singleton.
      unfold well_formed. cbn. intuition (done || auto).
  - eexists. split; [done|]. by cbn.
Qed.


(** The events of the last part of [createSIF], from what the world
    answers. *)
Lemma commit_stage_tail w path squashfile cinfo fs r fs' tail uid gid ok ws :
  commit_stage w path squashfile cinfo fs r fs' tail →
  (∀ st, changeOwner w st = (Ok (uid, gid, ok), logged st ws)) →
  tail =
    match w_create w, w_unload w with
    | Some _, _ => []
    | None, Some _ => [EvUnloadContainer (Pathname cinfo)]
    | None, None =>
        EvUnloadContainer (Pathname cinfo) :: ws ++
        (if ok then [EvChown path uid gid] else [])
    end.
Proof.
  intros Hcommit Hown.
  destruct Hcommit as [e He|e Hc He|? ? ? Hc Hu Ho|? ? ? ? Hc Hu Ho ?|? ? ? Hc Hu Ho ?];
    try destruct (changeOwner_unique _ _ _ _ _ _ _ _ _ Hown Ho) as (-> & -> & <- & ->);
    rewrite ?He, ?Hc, ?Hu; try done.
  by rewrite app_nil_r.
Qed.

Local Ltac in_trace Hws :=
  cbn [app]; rewrite ?elem_of_cons, ?elem_of_app, ?elem_of_cons, ?elem_of_nil;
  intuition (try discriminate; try congruence);
  try match goal with
      | H : ?e ∈ _ |- _ => apply (proj1 (Forall_forall _ _) Hws) in H; by destruct H
      end.

Local Ltac not_in_trace Hws :=
  let Hin := fresh "Hin" in
  intros Hin; exfalso; revert Hin;
  cbn [app]; rewrite ?elem_of_cons, ?elem_of_app, ?elem_of_cons, ?elem_of_nil;
  intuition (try discriminate);
  match goal with
  | H : ?e ∈ _ |- _ => apply (proj1 (Forall_forall _ _) Hws) in H; by destruct H
  end.

(** X7.  No step of [createSIF] runs after a failure: the destination is
    removed only when every earlier stage succeeded, the container is
    finalized only when the writer succeeded, a warning of [changeOwner]
    is logged only when the finalize step succeeded, and [os.Chown] is
    called exactly when all of this succeeded and [changeOwner] asked for
    a change. *)
Theorem createSIF_no_step_after_failure path b squashfile encOpts arch w fs :
  let trace := st_trace (run (createSIF path b squashfile encOpts arch) w fs).2 in
  ∃ uid gid ok warnings,
    (∀ st, changeOwner w st = (Ok (uid, gid, ok), logged st warnings)) ∧
    ((∃ p, EvRemoveAll p ∈ trace) ↔ prepared w fs squashfile encOpts arch) ∧
    ((∃ p, EvUnloadContainer p ∈ trace) ↔
       prepared w fs squashfile encOpts arch ∧ w_create w = None) ∧
    ((∃ e, is_warning e ∧ e ∈ trace) →
       prepared w fs squashfile encOpts arch ∧ w_create w = None ∧ w_unload w = None) ∧
    ((∃ p u g, EvChown p u g ∈ trace) ↔
       prepared w fs squashfile encOpts arch ∧ w_create w = None ∧ w_unload w = None ∧
       ok = true).
Proof.
  cbn. destruct (changeOwner_run w) as (uid & gid & ok & ws & Hown & Hws & _).
  exists uid, gid, ok, ws. split; [done|].
  destruct (createSIF_cases path b squashfile encOpts arch w fs)
    as [(e & evs & Heq & Hevs & Hwhy)|(cinfo & r & fs' & tail & Hpath & Hcommit & Heq)];
    rewrite Heq; cbn [snd st_trace].
  - assert (¬ prepared w fs squashfile encOpts arch) as Hnot.
    { intros [c Hc]%(createSIF_prepared path b). by eapply fails_early_not_handed. }
    assert (∀ e, e ∈ evs → e = EvOpen squashfile ∨ e = EvClose squashfile) as Hin.
    { intros e0. destruct Hevs as [->| ->]; in_trace Hws. }
    split; [|split; [|split]].
    + split; [intros (? & [?|?]%Hin); done|tauto].
    + split; [intros (? & [?|?]%Hin); done|tauto].
    + intros (? & Hw & [->| ->]%Hin); done.
    + split; [intros (? & ? & ? & [?|?]%Hin); done|tauto].
  - assert (prepared w fs squashfile encOpts arch) as Hprep.
    { apply (createSIF_prepared path b). exists cinfo. unfold handed. rewrite Heq. cbn.
      rewrite !elem_of_cons. auto. }
    rewrite (commit_stage_tail _ _ _ _ _ _ _ _ _ _ _ _ Hcommit Hown).
    split; [|split; [|split]].
    + split; [done|]. intros _. exists path. cbn [app]. rewrite !elem_of_cons. auto.
    + split.
      * intros [p Hin]. split; [done|]. revert Hin.
        destruct (w_create w); [not_in_trace Hws|done].
      * intros [_ ->]. eexists. destruct (w_unload w); cbn [app]; rewrite !elem_of_cons; auto.
    + intros (e & Hw & Hin). split; [done|]. revert Hin.
      destruct (w_create w); [intros Hin; exfalso; revert Hin; in_trace Hws; by subst|].
      destruct (w_unload w); [intros Hin; exfalso; revert Hin; in_trace Hws; by subst|done].
    + split.
      * intros (p & u & g & Hin). split; [done|]. revert Hin.
        destruct (w_create w); [not_in_trace Hws|].
        destruct (w_unload w); [not_in_trace Hws|].
        destruct ok; [done|not_in_trace Hws].
      * intros (_ & -> & -> & ->). eexists _, _, _. cbn [app].
        rewrite !elem_of_cons, !elem_of_app, !elem_of_cons. eauto 10.
Qed.





(** ** [changeOwner]: what it logs and what it reads *)

(** The error of [strconv.Atoi] names the function and the input. *)
Lemma strconv_Atoi_error (s : string) (e : error) :
  strconv_Atoi s = Err e → ∃ kind, e = ErrNum "Atoi" s kind.
Proof.
  unfold strconv_Atoi.
  destruct (match s with
            | String "-" t => (true, t)
            | String "+" t => (false, t)
            | _ => (false, s)
            end) as [neg body].
  destruct body as [|c body]; [intros [= <-]; eauto|].
  destruct (ParseUint_digits (String c body) 0) as [kind|un]; [intros [= <-]; eauto|].
  case_bool_decide; [done|intros [= <-]; eauto].
Qed.

Local Ltac owner_branch :=
  intros [fs tr]; unfold changeOwner, logged; unfold_prims; cbn;
  repeat match goal with
  | H : MatchString _ _ = _ |- _ => rewrite H; cbn
  | H : strconv_Atoi _ = _ |- _ => rewrite H; cbn
  | H : _ ≠ _ |- _ => rewrite (bool_decide_eq_false_2 _ H); cbn
  | H : getenv _ _ = "" |- _ => rewrite (bool_decide_eq_true_2 _ H); cbn
  | H : w_uid _ = 0%Z |- _ => rewrite (bool_decide_eq_true_2 _ H); cbn
  end;
  rewrite ?orb_true_r; cbn; reflexivity.

(** X9.  The warning of [changeOwner], once the command matches, a user is
    recorded and the process is the superuser: when SUDO_UID or SUDO_GID
    is empty, the one line saying that they are not set; otherwise, when
    SUDO_UID does not parse, one line with the error of [strconv.Atoi] on
    it, whatever SUDO_GID is; otherwise, when SUDO_GID does not parse, one
    line with the error on that.  The error names the text that was
    rejected. *)
Theorem changeOwner_warning (w : World) :
  let _uid := getenv w "SUDO_UID" in
  let _gid := getenv w "SUDO_GID" in
  MatchString "singularity" (getenv w "SUDO_COMMAND") = true →
  getenv w "SUDO_USER" ≠ "" → w_uid w = 0%Z →
  (_uid = "" ∨ _gid = "" →
     ∀ st, changeOwner w st =
       (Ok (0%Z, 0%Z, false),
        logged st [EvLog Warning
          "Env vars SUDO_UID or SUDO_GID are not set, won't call chown over built SIF" []])) ∧
  (_uid ≠ "" → _gid ≠ "" →
     (∀ e, strconv_Atoi _uid = Err e →
        (∃ kind, e = ErrNum "Atoi" _uid kind) ∧
        ∀ st, changeOwner w st =
          (Ok (0%Z, 0%Z, false),
           logged st [EvLog Warning "Error while calling strconv: %v" [ArgError e]])) ∧
     (∀ uid e, strconv_Atoi _uid = Ok uid → strconv_Atoi _gid = Err e →
        (∃ kind, e = ErrNum "Atoi" _gid kind) ∧
        ∀ st, changeOwner w st =
          (Ok (0%Z, 0%Z, false),
           logged st [EvLog Warning "Error while calling strconv : %v" [ArgError e]]))).
Proof.
  intros _uid _gid Hcmd Huser Hroot. subst _uid _gid. split; [|split].
  - intros [Hu|Hg].
    + owner_branch.
    + destruct (decide (getenv w "SUDO_UID" = "")); owner_branch.
  - intros e He. split; [by apply strconv_Atoi_error|]. owner_branch.
  - intros uid e Hu He. split; [by apply strconv_Atoi_error|]. owner_branch.
Qed.

(** X10.  [changeOwner] reads four environment variables (SUDO_COMMAND,
    SUDO_USER, SUDO_UID, SUDO_GID) and whether the user id of the process
    is zero, and nothing else: in two worlds that agree on these it
    answers and logs the same. *)
Theorem changeOwner_reads (w1 w2 : World) :
  (∀ key, key ∈ ["SUDO_COMMAND"; "SUDO_USER"; "SUDO_UID"; "SUDO_GID"] →
          getenv w1 key = getenv w2 key) →
  (w_uid w1 = 0%Z ↔ w_uid w2 = 0%Z) →
  ∀ st, changeOwner w1 st = changeOwner w2 st.
Proof.
  intros Henv Huid st.
  assert (bool_decide (w_uid w1 = 0%Z) = bool_decide (w_uid w2 = 0%Z)) as Hroot
    by (by apply bool_decide_ext).
  unfold changeOwner. unfold_prims. cbn.
  rewrite (Henv "SUDO_COMMAND") by (rewrite !elem_of_cons; auto 10).
  destruct (MatchString "singularity" (getenv w2 "SUDO_COMMAND")); cbn; [|done].
  rewrite (Henv "SUDO_USER"), Hroot by (rewrite !elem_of_cons; auto 10).
  destruct (_ || _); cbn; [done|].
  rewrite (Henv "SUDO_UID"), (Henv "SUDO_GID") by (rewrite !elem_of_cons; auto 10).
  destruct (_ || _); cbn; [done|].
  destruct (strconv_Atoi (getenv w2 "SUDO_UID")); cbn; [|done].
  by destruct (strconv_Atoi (getenv w2 "SUDO_GID")).
Qed.

(** ** [Assemble]: its runs, its errors and its temporary files *)

Local Ltac frame_leaf :=
  unfold resumed, logged; cbn; rewrite ?app_nil_r, <- ?app_assoc; cbn;
  rewrite <- ?app_assoc; reflexivity.

Local Ltac frame_owner w :=
  let E := fresh "Hown" in
  destruct (changeOwner_run w) as (uid & gid & [] & warnings & E & _);
  rewrite !E; unfold logged; cbn;
  [destruct (w_chown w); cbn; frame_leaf|frame_leaf].

Local Ltac frame_commit w :=
  destruct (w_removeall w); cbn;
  (destruct (w_create w); cbn; [frame_leaf|]);
  (destruct (w_unload w); cbn; [frame_leaf|frame_owner w]).

(** [createSIF] does not look at the trace: started after other events, it
    does what it does from an empty trace, and appends. *)
Lemma createSIF_resumed path b squashfile encOpts arch w fs tr :
  createSIF path b squashfile encOpts arch w {| st_fs := fs; st_trace := tr |} =
  resumed tr (run (createSIF path b squashfile encOpts arch) w fs).
Proof.
  unfold run, createSIF. unfold_prims. cbn.
  destruct (w_uuid w) as [id|e]; cbn; [|frame_leaf].
  destruct (fs !! squashfile) as [f|]; cbn; [|frame_leaf].
  destruct (w_open w) as [e|]; cbn; [frame_leaf|].
  destruct (w_stat w) as [size|e]; cbn; [|frame_leaf].
  destruct (w_SetPartExtra w _ PartPrimSys (w_GetSIFArch w arch)) as [e|]; cbn; [frame_leaf|].
  destruct encOpts as [opts|]; cbn.
  - destruct (w_EncryptKey w (keyInfo opts) (plaintext opts)) as [[data|]|e]; cbn;
      [|frame_commit w|frame_leaf].
    destruct (w_SetCryptoMsgExtra w FormatPEM MessageRSAOAEP) as [e|]; cbn;
      [frame_leaf|frame_commit w].
  - frame_commit w.
Qed.

Arguments squashfs_events : simpl never.

Local Ltac outcome H :=
  eapply (eq_ind _ (Assemble_outcome _ _ _ _ _) H);
  unfold squashfs_events, start_event, scratch; cbn;
  rewrite ?insert_insert_eq, ?delete_insert_id by done;
  norm_trace; try reflexivity.

(** Every run of [Assemble] is one of the outcomes, by symbolic execution
    of the function along what the world answers. *)
Lemma Assemble_outcomes a b path w fs :
  Assemble_outcome a b path w fs (run (Assemble a b path) w fs).
Proof.
  unfold run, Assemble. unfold_prims. cbn.
  destruct (w_tempfile w) as [name|e] eqn:Htmp; cbn; [|apply no_temp_file; auto].
  destruct (fs !! name) as [f|] eqn:Hname; cbn; [apply no_temp_file; eauto 10|].
  rewrite resolve_arch_run. unfold logged. cbn. fold (resolved_arch w (RootfsPath b)).
  destruct (w_mksquashfs w [RootfsPath b] (mksquashfs_flags a (w_uid w)))
    as [data|e] eqn:Hmk; cbn.
  2: { outcome (squashfs_failed a b path w fs name e Htmp Hname Hmk). }
  destruct (Opts_EncryptionKeyInfo b) as [key|] eqn:Hkey; cbn.
  - destruct (w_NewPlaintextKey w key) as [plain|e] eqn:Hplain; cbn.
    2: { outcome (key_failed a b path w fs name data key e Htmp Hname Hmk Hkey Hplain). }
    destruct (w_EncryptFilesystem w name plain) as [[loop encrypted]|e] eqn:Henc; cbn.
    2: { outcome (encrypt_failed a b path w fs name data key plain e
                    Htmp Hname Hmk Hkey Hplain Henc). }
    rewrite createSIF_resumed. unfold resumed.
    pose proof (encrypted_build a b path w fs name data key plain loop encrypted
                  Htmp Hname Hmk Hkey Hplain Henc) as H. cbn zeta in H.
    rewrite insert_insert_eq.
    fold (scratch w data). fold (scratch w encrypted).
    destruct (run _ w _) as [[[]|e] [fs' tr']]; cbn in *; outcome H.
  - rewrite createSIF_resumed. unfold resumed.
    pose proof (plain_build a b path w fs name data Htmp Hname Hmk Hkey) as H.
    cbn zeta in H. rewrite insert_insert_eq. fold (scratch w data).
    destruct (run _ w _) as [[[]|e] [fs' tr']]; cbn in *; outcome H.
Qed.

Lemma squashfs_events_early a b w name :
  Forall (early_event name) (squashfs_events a b w name).
Proof.
  unfold squashfs_events, arch_events, start_event.
  case_decide; cbn [app]; by repeat constructor.
Qed.

Lemma elem_of_after_squashfs a b w name e evs :
  e ∈ squashfs_events a b w name ++ evs → early_event name e ∨ e ∈ evs.
Proof.
  intros [Hin|Hin]%elem_of_app; [left|by right].
  by apply (proj1 (Forall_forall _ _) (squashfs_events_early a b w name)).
Qed.



Local Ltac outcomes a b path w fs :=
  let Hrun := fresh "Hrun" in
  let out := fresh "out" in
  let Hout := fresh "Hout" in
  pose proof (Assemble_outcomes a b path w fs) as Hrun;
  remember (run (Assemble a b path) w fs) as out eqn:Hout; clear Hout;
  destruct Hrun as [e [H|(n & H & Hn & ->)]|n e Ht Hn Hmk|n data Ht Hn Hmk Hk inner
                    |n data key e Ht Hn Hmk Hk Hp|n data key plain e Ht Hn Hmk Hk Hp He
                    |n data key plain loop enc Ht Hn Hmk Hk Hp He inner];
  cbn [fst snd st_fs st_trace] in *.

(** Where an event can sit in the trace of [Assemble]. *)
Local Ltac locate0 Hin :=
  repeat match type of Hin with
         | _ ∈ squashfs_events _ _ _ _ ++ _ =>
             apply elem_of_after_squashfs in Hin as [Hin|Hin]
         | _ ∈ [_] => apply list_elem_of_singleton in Hin
         | _ ∈ _ :: _ => apply elem_of_cons in Hin as [Hin|Hin]
         | _ ∈ _ ++ _ => apply elem_of_app in Hin as [Hin|Hin]
         | _ ∈ [] => apply elem_of_nil in Hin; destruct Hin
         end;
  try discriminate Hin;
  try match type of Hin with
      | early_event _ _ => first [by destruct Hin|cbn in Hin; subst]
      | _ = _ => simplify_eq
      end.


(** X11.  The error [Assemble] returns before it calls [createSIF] is
    decided by the first stage that fails: the temporary file (a name that
    is taken included), the squashfs call, the plaintext key, the
    encryption of the file system, whose message also names the squashfs
    file.  Once the writer has been called, an error of [Assemble] is the
    error of [createSIF] under "while creating SIF"; and [Assemble] never
    returns an error without a message of its own around it. *)
Theorem Assemble_stage_errors a b path w fs :
  let r := (run (Assemble a b path) w fs).1 in
  let flags := mksquashfs_flags a (w_uid w) in
  (∀ e, w_tempfile w = Err e →
        r = Err (Errorf "while creating temporary file for squashfs: %v" [] e)) ∧
  (∀ name, w_tempfile w = Ok name → is_Some (fs !! name) →
        r = Err (Errorf "while creating temporary file for squashfs: %v" []
                   (ErrExternal "open" "file exists"))) ∧
  (∀ name, w_tempfile w = Ok name → fs !! name = None →
     (∀ e, w_mksquashfs w [RootfsPath b] flags = Err e →
           r = Err (Errorf "while creating squashfs: %v" [] e)) ∧
     (∀ data key, w_mksquashfs w [RootfsPath b] flags = Ok data →
        Opts_EncryptionKeyInfo b = Some key →
        (∀ e, w_NewPlaintextKey w key = Err e →
              r = Err (Errorf "unable to obtain encryption key: %+v" [] e)) ∧
        (∀ plain e, w_NewPlaintextKey w key = Ok plain →
              w_EncryptFilesystem w name plain = Err e →
              r = Err (Errorf "unable to encrypt filesystem at %s: %+v" [name] e)))) ∧
  (∀ cinfo e, handed (Assemble a b path) w fs cinfo → r = Err e →
     ∃ cause, e = Errorf "while creating SIF: %v" [] cause) ∧
  (∀ e, r = Err e → ∃ format args cause, e = Errorf format args cause).
Proof.
  cbn. unfold handed. outcomes a b path w fs.
  all: repeat match goal with
             | |- _ ∧ _ => split
             | |- _ → _ => intro
             | |- ∀ _, _ => intro
             end.
  all: simplify_eq; eauto; try congruence.
  all: repeat match goal with
              | H1 : w_tempfile ?w = Ok ?n, H2 : w_tempfile ?w = Ok ?m |- _ =>
                  assert (n = m) by congruence; subst; clear H2
              end.
  all: try match goal with
           | H1 : ?x = None, H2 : is_Some ?x |- _ => rewrite H1 in H2; by destruct H2
           | H : EvCreateContainer _ ∈ [start_event] |- _ =>
               apply list_elem_of_singleton in H; discriminate H
           | H : EvCreateContainer _ ∈ squashfs_events _ _ _ _ ++ [_] |- _ =>
               apply elem_of_after_squashfs in H as [[]|[=]%list_elem_of_singleton]
           end.
  all: try (destruct inner.1 as [[]|?]; cbn in *; simplify_eq; eauto).
Qed.




(** The call of the writer in a run of [Assemble] is the one of its call
    of [createSIF]. *)
Lemma Assemble_handed_inner a b path w fs cinfo :
  handed (Assemble a b path) w fs cinfo →
  ∃ name data squashfile encOpts fs0,
    w_tempfile w = Ok name ∧ fs !! name = None ∧
    w_mksquashfs w [RootfsPath b] (mksquashfs_flags a (w_uid w)) = Ok data ∧
    handed (createSIF path b squashfile encOpts (resolved_arch w (RootfsPath b))) w fs0 cinfo ∧
    match Opts_EncryptionKeyInfo b with
    | None =>
        squashfile = name ∧ encOpts = None ∧ fs0 = <[name := scratch w data]> fs
    | Some key =>
        ∃ plain encrypted,
          w_NewPlaintextKey w key = Ok plain ∧
          w_EncryptFilesystem w name plain = Ok (squashfile, encrypted) ∧
          encOpts = Some {| keyInfo := key; plaintext := plain |} ∧
          fs0 = <[squashfile := scratch w encrypted]> (<[name := scratch w data]> fs)
    end.
Proof.
  unfold handed at 1. intros Hin. outcomes a b path w fs; locate0 Hin.
  - exists n, data, n, None, (<[n := scratch w data]> fs). rewrite Hk. by repeat split.
  - eexists n, data, loop, _, _. rewrite Hk. repeat split; [done..|]. eauto 10.
Qed.

(** X14.  What [Assemble] hands to the writer: at most one container per
    run, for the destination path, whose one partition descriptor is
    tagged with the architecture [Assemble] resolved.  Without key
    information the partition is the temporary squashfs file, tagged as
    squashfs, and there is no key blob.  With key information it is the
    device the encryption returned for the temporary file and the
    generated plaintext key, never the squashfs file itself, tagged as
    encrypted squashfs, and a key blob carries that plaintext key wrapped
    with the key information of the bundle. *)
Theorem Assemble_partition a b path w fs cinfo :
  handed (Assemble a b path) w fs cinfo →
  (∀ c, handed (Assemble a b path) w fs c → c = cinfo) ∧
  Pathname cinfo = path ∧
  ∃ name part,
    w_tempfile w = Ok name ∧
    of_type DataPartition cinfo = [part] ∧
    Extra part =
      PartExtra (if Opts_EncryptionKeyInfo b is Some _ then FsEncryptedSquashfs else FsSquash)
        PartPrimSys (w_GetSIFArch w (resolved_arch w (RootfsPath b))) ∧
    match Opts_EncryptionKeyInfo b with
    | None => Fname part = name ∧ of_type DataCryptoMessage cinfo = []
    | Some key =>
        ∃ plain encrypted,
          w_NewPlaintextKey w key = Ok plain ∧
          w_EncryptFilesystem w name plain = Ok (Fname part, encrypted) ∧
          ∀ d, d ∈ of_type DataCryptoMessage cinfo →
               w_EncryptKey w key plain = Ok (Some (Data d))
    end.
Proof.
  intros Hin. split.
  - intros c Hc.
    apply Assemble_handed_inner in Hin
      as (n & data & sq & enc & fs0 & Ht & _ & Hmk & Hin & Hcase).
    apply Assemble_handed_inner in Hc
      as (n' & data' & sq' & enc' & fs0' & Ht' & _ & Hmk' & Hc & Hcase').
    assert (n' = n) as -> by congruence.
    assert (data' = data) as -> by congruence.
    destruct (Opts_EncryptionKeyInfo b) as [key|].
    + destruct Hcase as (plain & e1 & Hp & He & -> & ->).
      destruct Hcase' as (plain' & e1' & Hp' & He' & -> & ->).
      assert (plain' = plain) as -> by congruence.
      rewrite He in He'. injection He' as -> ->.
      symmetry. by eapply handed_unique.
    + destruct Hcase as (-> & -> & ->). destruct Hcase' as (-> & -> & ->).
      symmetry. by eapply handed_unique.
  - apply Assemble_handed_inner in Hin
      as (n & data & sq & enc & fs0 & Ht & _ & Hmk & Hin & Hcase).
    apply createSIF_handed in Hin
      as (id & size & kd & _ & _ & _ & _ & _ & Hkey & ->).
    split; [done|]. exists n. eexists. split; [done|].
    rewrite !of_type_built. repeat (case_decide; try done). cbn [app].
    split; [done|].
    destruct (Opts_EncryptionKeyInfo b) as [key|].
    + destruct Hcase as (plain & e1 & Hp & He & -> & ->).
      split; [done|]. exists plain, e1. split; [done|]. split; [done|].
      intros d. inversion Hkey as [|opts kd' Hwrap Hextra]; subst.
      destruct kd as [blob|]; cbn; [|by intros ?%elem_of_nil].
      by intros ->%list_elem_of_singleton.
    + destruct Hcase as (-> & -> & ->). split; [done|]. split; [done|].
      by inversion Hkey.
Qed.

(** A run of [createSIF] that returns no error leaves its container at the
    destination. *)
Lemma createSIF_success path b squashfile encOpts arch w fs :
  (run (createSIF path b squashfile encOpts arch) w fs).1 = Ok () →
  ∃ cinfo f,
    handed (createSIF path b squashfile encOpts arch) w fs cinfo ∧
    st_fs (run (createSIF path b squashfile encOpts arch) w fs).2 !! path = Some f ∧
    f_content f = FSIF cinfo.
Proof.
  destruct (createSIF_cases path b squashfile encOpts arch w fs)
    as [(e & evs & -> & _ & _)|(cinfo & r & fs' & tail & Hpath & Hcommit & Heq)]; [done|].
  unfold handed. rewrite Heq. cbn. intros ->.
  destruct (commit_stage_artifact _ _ _ _ _ _ _ _ Hcommit Hpath) as (f & Hf & Hc).
  { by eapply commit_stage_returns. }
  exists cinfo, f. rewrite !elem_of_cons. auto.
Qed.

(** X15.  After a run of [Assemble] that returns nil, the destination
    holds the container that was handed to the writer, provided the
    destination is not one of the temporary files that the deferred calls
    remove. *)
Theorem Assemble_success a b path w fs :
  let out := run (Assemble a b path) w fs in
  out.1 = Ok () →
  EvRemove path ∉ st_trace out.2 →
  ∃ cinfo f,
    handed (Assemble a b path) w fs cinfo ∧
    st_fs out.2 !! path = Some f ∧ f_content f = FSIF cinfo.
Proof.
  cbn zeta. unfold handed. intros Hok Hkeep. outcomes a b path w fs; try done.
  - assert (n ≠ path) as Hne.
    { intros ->. apply Hkeep. rewrite !elem_of_app, list_elem_of_singleton. auto. }
    destruct (createSIF_success path b n None (resolved_arch w (RootfsPath b)) w
                (<[n := scratch w data]> fs)) as (cinfo & f & Hin & Hf & Hc).
    { fold inner. by destruct inner.1 as [[]|]. }
    exists cinfo, f. rewrite lookup_delete_ne by done. split; [|done].
    rewrite !elem_of_app. auto.
  - assert (n ≠ path ∧ loop ≠ path) as [Hne Hne'].
    { split; intros ->; apply Hkeep;
        rewrite elem_of_app, elem_of_cons, elem_of_app, !elem_of_cons; auto 10. }
    destruct (createSIF_success path b loop (Some {| keyInfo := key; plaintext := plain |})
                (resolved_arch w (RootfsPath b)) w
                (<[loop := scratch w enc]> (<[n := scratch w data]> fs)))
      as (cinfo & f & Hin & Hf & Hc).
    { fold inner. by destruct inner.1 as [[]|]. }
    exists cinfo, f. rewrite !lookup_delete_ne by done. split; [|done].
    rewrite elem_of_app, elem_of_cons, elem_of_app. auto.
Qed.

(** X16.  [Assemble] changes the file system at the destination and at
    its temporary files only: a file that is neither the destination nor
    below it, and that no deferred call removes, is after the run what it
    was before. *)
Theorem Assemble_frame a b path w fs p :
  let out := run (Assemble a b path) w fs in
  within path p = false →
  EvRemove p ∉ st_trace out.2 →
  st_fs out.2 !! p = fs !! p.
Proof.
  cbn zeta. intros Hout Hkeep. outcomes a b path w fs; try done.
  - assert (p ≠ n) as Hne.
    { intros ->. apply Hkeep. rewrite !elem_of_app, list_elem_of_singleton. auto. }
    rewrite lookup_delete_ne by done. unfold inner.
    rewrite createSIF_outside by done. by rewrite lookup_insert_ne.
  - assert (p ≠ n ∧ p ≠ loop) as [Hne Hne'].
    { split; intros ->; apply Hkeep;
        rewrite elem_of_app, elem_of_cons, elem_of_app, !elem_of_cons; auto 10. }
    rewrite !lookup_delete_ne by done. unfold inner.
    rewrite createSIF_outside by done. by rewrite !lookup_insert_ne.
Qed.

(** X17.  [Assemble] returns nil exactly when the temporary file could be
    made under a new name, the squashfs call succeeded, with key
    information the plaintext key and the encrypted device could be made,
    and [createSIF], called on the temporary file or on the encrypted
    device, returned nil. *)
Theorem Assemble_succeeds_iff a b path w fs :
  (run (Assemble a b path) w fs).1 = Ok () ↔
  ∃ name data,
    w_tempfile w = Ok name ∧ fs !! name = None ∧
    w_mksquashfs w [RootfsPath b] (mksquashfs_flags a (w_uid w)) = Ok data ∧
    match Opts_EncryptionKeyInfo b with
    | None =>
        (run (createSIF path b name None (resolved_arch w (RootfsPath b))) w
           (<[name := scratch w data]> fs)).1 = Ok ()
    | Some key =>
        ∃ plain loop encrypted,
          w_NewPlaintextKey w key = Ok plain ∧
          w_EncryptFilesystem w name plain = Ok (loop, encrypted) ∧
          (run (createSIF path b loop (Some {| keyInfo := key; plaintext := plain |})
                  (resolved_arch w (RootfsPath b))) w
             (<[loop := scratch w encrypted]> (<[name := scratch w data]> fs))).1 = Ok ()
    end.
Proof.
  outcomes a b path w fs.
  all: split;
    [intros Hok|
     intros (name' & data' & Ht' & Hn' & Hmk' & Hrest);
     try (assert (name' = n) as -> by congruence);
     try (assert (data' = data) as -> by congruence)].
  all: try discriminate Hok; try congruence.
  all: try (rewrite Hn' in Hn; by destruct Hn).
  all: try (rewrite Hk in Hrest).
  all: try (destruct Hrest as (plain' & loop' & enc' & Hp' & He' & Hrun); congruence).
  - exists n, data. rewrite Hk. repeat split; try done.
    fold inner. by destruct inner.1 as [[]|].
  - fold inner in Hrest. by rewrite Hrest.
  - exists n, data. rewrite Hk. repeat split; try done.
    exists plain, loop, enc. repeat split; try done.
    fold inner. by destruct inner.1 as [[]|].
  - destruct Hrest as (plain' & loop' & enc' & Hp' & He' & Hrun).
    assert (plain' = plain) as -> by congruence.
    rewrite He in He'. injection He' as <- <-.
    fold inner in Hrun. by rewrite Hrun.
Qed.

(** ** Concrete runs of the further properties *)

(** The place of an event in a computed trace. *)
Local Ltac in_run :=
  vm_compute;
  repeat first [apply list_elem_of_here|apply list_elem_of_further].

(** An event that is not in a computed trace. *)
Local Ltac not_in_run :=
  let Hin := fresh "Hin" in
  intros Hin; vm_compute in Hin;
  repeat (apply elem_of_cons in Hin as [Hin|Hin]; [discriminate Hin|]);
  by apply elem_of_nil in Hin.

Lemma createSIF_stage_errors_witness :
  (run (createSIF "/out.sif" failing.plain "/build/tmp/squashfs-1" None "amd64")
     (failing.without_identifier demo.user_world) demo.files).1 =
  Err (Errorf "sif id generation failed: %v" [] failing.no_entropy).
Proof.
  apply (proj1 (createSIF_stage_errors "/out.sif" failing.plain "/build/tmp/squashfs-1"
                  None "amd64" (failing.without_identifier demo.user_world) demo.files)).
  reflexivity.
Defined.

Lemma createSIF_closes_partition_witness :
  ∃ mid,
    st_trace (run (createSIF "/out.sif" failing.plain "/build/tmp/squashfs-1" None "amd64")
                demo.user_world demo.files).2 =
      EvOpen "/build/tmp/squashfs-1" :: mid ++ [EvClose "/build/tmp/squashfs-1"] ∧
    ∀ p, (EvOpen p ∉ mid) ∧ (EvClose p ∉ mid).
Proof.
  apply (proj2 (createSIF_closes_partition "/out.sif" failing.plain "/build/tmp/squashfs-1"
                  None "amd64" demo.user_world demo.files)).
  vm_compute. discriminate.
Defined.

Lemma createSIF_frame_witness :
  st_fs (run (createSIF "/out.sif" failing.plain "/build/tmp/squashfs-1" None "amd64")
           demo.user_world demo.files).2 !! "/build/tmp/squashfs-1" =
  demo.files !! "/build/tmp/squashfs-1".
Proof.
  apply (proj1 (createSIF_frame "/out.sif" failing.plain "/build/tmp/squashfs-1"
                  None "amd64" demo.user_world demo.files "/build/tmp/squashfs-1")).
  reflexivity.
Defined.

Lemma createSIF_succeeds_iff_witness :
  prepared demo.user_world demo.files "/build/tmp/squashfs-1" None "amd64" ∧
  w_create demo.user_world = None ∧ w_unload demo.user_world = None.
Proof.
  destruct (createSIF_succeeds_iff "/out.sif" failing.plain "/build/tmp/squashfs-1"
              None "amd64" demo.user_world demo.files)
    as (uid & gid & ok & warnings & _ & Hiff).
  destruct (proj1 Hiff) as (Hprep & Hcreate & Hunload & _); [by vm_compute|].
  auto.
Defined.

Lemma container_layout_witness :
  handed (createSIF "/out.sif" failing.plain "/build/tmp/squashfs-1" None "amd64")
    demo.user_world demo.files (demo.image failing.plain demo.id1 None) ∧
  Forall well_formed (InputDescr (demo.image failing.plain demo.id1 None)).
Proof.
  assert (handed (createSIF "/out.sif" failing.plain "/build/tmp/squashfs-1" None "amd64")
            demo.user_world demo.files (demo.image failing.plain demo.id1 None)) as Hin
    by third_event.
  split; [exact Hin|].
  exact (proj1 (proj2 (proj2 (container_layout _ _ _ _ _ _ _ _ Hin)))).
Defined.


Lemma createSIF_no_step_after_failure_witness :
  prepared (demo.sudo_world None) demo.files "/build/tmp/squashfs-1" None "amd64" ∧
  w_create (demo.sudo_world None) = None ∧ w_unload (demo.sudo_world None) = None.
Proof.
  destruct (createSIF_no_step_after_failure "/out.sif" failing.plain
              "/build/tmp/squashfs-1" None "amd64" (demo.sudo_world None) demo.files)
    as (uid & gid & ok & warnings & _ & _ & _ & _ & Hchown).
  destruct (proj1 Hchown) as (Hprep & Hcreate & Hunload & _); [|by auto].
  exists "/out.sif", 1000%Z, 1000%Z. in_run.
Defined.


Lemma changeOwner_warning_witness :
  run changeOwner failing.named_uid_world demo.files =
    (Ok (0%Z, 0%Z, false),
     {| st_fs := demo.files;
        st_trace := [EvLog Warning "Error while calling strconv: %v"
                       [ArgError (ErrNum "Atoi" "alice" ErrSyntax)]] |}).
Proof.
  assert (getenv failing.named_uid_world "SUDO_USER" ≠ "") as Huser
    by (vm_compute; discriminate).
  assert (getenv failing.named_uid_world "SUDO_UID" ≠ "") as Hu
    by (vm_compute; discriminate).
  assert (getenv failing.named_uid_world "SUDO_GID" ≠ "") as Hg
    by (vm_compute; discriminate).
  destruct (changeOwner_warning failing.named_uid_world eq_refl Huser eq_refl)
    as [_ Hparse].
  destruct (Hparse Hu Hg) as [Huid _].
  destruct (Huid (ErrNum "Atoi" "alice" ErrSyntax)) as [_ Heq]; [by vm_compute|].
  exact (Heq {| st_fs := demo.files; st_trace := [] |}).
Defined.

Lemma changeOwner_reads_witness :
  run changeOwner (demo.sudo_world None) demo.files =
  run changeOwner failing.other_sudo_world demo.files.
Proof.
  apply (changeOwner_reads (demo.sudo_world None) failing.other_sudo_world);
    [|by vm_compute].
  intros key Hin. rewrite !elem_of_cons, elem_of_nil in Hin.
  destruct Hin as [->|[->|[->|[->|[]]]]]; by vm_compute.
Defined.

Lemma Assemble_stage_errors_witness :
  (run (Assemble demo.assembler failing.plain "/out.sif")
     (failing.without_squashfs demo.user_world) demo.files).1 =
  Err (Errorf "while creating squashfs: %v" [] failing.out_of_space).
Proof.
  apply (proj1 (proj2 (proj2 (Assemble_stage_errors demo.assembler failing.plain "/out.sif"
                               (failing.without_squashfs demo.user_world) demo.files)))
           "/build/tmp/squashfs-123" eq_refl eq_refl).
  reflexivity.
Defined.



Lemma Assemble_partition_witness :
  ∃ cinfo,
    handed (Assemble demo.assembler failing.sealed "/out.sif") demo.user_world demo.files
      cinfo ∧
    Pathname cinfo = "/out.sif".
Proof.
  eexists. split.
  - unfold handed. in_run.
  - refine (proj1 (proj2 (Assemble_partition demo.assembler failing.sealed "/out.sif"
                            demo.user_world demo.files _ _))).
    unfold handed. in_run.
Defined.

Lemma Assemble_success_witness :
  ∃ cinfo f,
    handed (Assemble demo.assembler failing.plain "/out.sif") demo.user_world demo.files
      cinfo ∧
    st_fs (run (Assemble demo.assembler failing.plain "/out.sif")
             demo.user_world demo.files).2 !! "/out.sif" = Some f ∧
    f_content f = FSIF cinfo.
Proof.
  apply (Assemble_success demo.assembler failing.plain "/out.sif" demo.user_world
           demo.files).
  - by vm_compute.
  - not_in_run.
Defined.

Lemma Assemble_frame_witness :
  st_fs (run (Assemble demo.assembler failing.sealed "/out.sif")
           demo.user_world demo.files).2 !! "/build/tmp/squashfs-1" =
  demo.files !! "/build/tmp/squashfs-1".
Proof.
  apply (Assemble_frame demo.assembler failing.sealed "/out.sif" demo.user_world
           demo.files "/build/tmp/squashfs-1").
  - reflexivity.
  - not_in_run.
Defined.

Lemma Assemble_succeeds_iff_witness :
  ∃ name data,
    w_tempfile demo.user_world = Ok name ∧ demo.files !! name = None ∧
    w_mksquashfs demo.user_world [RootfsPath failing.sealed]
      (mksquashfs_flags demo.assembler (w_uid demo.user_world)) = Ok data.
Proof.
  destruct (proj1 (Assemble_succeeds_iff demo.assembler failing.sealed "/out.sif"
                     demo.user_world demo.files))
    as (name & data & Htmp & Hnew & Hmk & _); [by vm_compute|].
  eauto.
Defined.
